(** * Mock Sys AI Box server: the device pairing state machine

    A shallow embedding of [scripts/mock-sysaibox/server.py].  The module
    level dictionary [device_codes] is threaded explicitly through the
    request handlers; the two sources of nondeterminism of the script, the
    random bytes behind [uuid.uuid4()] and the clock reading [time.time()],
    are carried by the request that triggers them.

    Conventions of the model:
    - A Python [str] is modelled as the [string] of its UTF-8 bytes, so
      that [==] on [str] is equality of [string]s.  On ASCII text
      [str.upper] is [PyStr.upper].  On other text it maps whole Unicode
      code points (some to ASCII letters, some to several code points), so
      the upper-casing of a submitted code is a parameter [upper] of the
      handler [approve] and of everything built on it; what is proved holds
      for every such function.
    - Clock readings are rationals ([Q]): every finite float is one.  The
      float subtraction [a - b] is [Float64.sub]: the exact difference
      rounded to the nearest binary64 value, ties to even.
    - A request argument that may be missing ([request.args.get],
      [body.get]) is an [option string], [None] standing for Python's
      [None].
    - Requests are handled one after the other.
    - The endpoints that answer with a constant (the landing page, the
      console form, health, version, revoke) and the text of the HTML
      pages are left out. *)

From Stdlib Require Import List String Ascii Bool NArith ZArith QArith Lia.
From Stdlib Require Import Qround Qpower Lqa.
From Stdlib Require Import PrimFloat FloatOps SpecFloat.
Import ListNotations.

Local Open Scope string_scope.

(** ** Python strings *)

Module PyStr.

(** A lower-case ASCII letter, by character code. *)
Definition is_lower_code (n : N) : bool := ((97 <=? n) && (n <=? 122))%N.

(** [c.upper()] for one ASCII character. *)
Definition upper_char (c : ascii) : ascii :=
  let n := N_of_ascii c in
  if is_lower_code n then ascii_of_N (n - 32) else c.

(** [s.upper()] for ASCII text [s]. *)
Fixpoint upper (s : string) : string :=
  match s with
  | EmptyString => EmptyString
  | String c s' => String (upper_char c) (upper s')
  end.

(** [s[:n]] *)
Fixpoint take (n : nat) (s : string) : string :=
  match n, s with
  | S n', String c s' => String c (take n' s')
  | _, _ => EmptyString
  end.

(** [s[n:]] *)
Fixpoint drop (n : nat) (s : string) : string :=
  match n, s with
  | S n', String _ s' => drop n' s'
  | _, _ => s
  end.

(** [s[i:j]] for [0 <= i <= j]. *)
Definition slice (i j : nat) (s : string) : string :=
  take (j - i) (drop i s).

(** Every character of [s] satisfies the test [p]. *)
Fixpoint all_chars (p : ascii -> bool) (s : string) : bool :=
  match s with
  | EmptyString => true
  | String c s' => p c && all_chars p s'
  end.

Definition is_digit (c : ascii) : bool :=
  let n := N_of_ascii c in ((48 <=? n) && (n <=? 57))%N.

Definition is_upper_letter (c : ascii) : bool :=
  let n := N_of_ascii c in ((65 <=? n) && (n <=? 90))%N.

(** An upper-case alphanumeric character: [0-9] or [A-Z]. *)
Definition is_upper_alnum (c : ascii) : bool :=
  is_digit c || is_upper_letter c.

(** A lower-case hexadecimal digit: [0-9] or [a-f]. *)
Definition is_lower_hex (c : ascii) : bool :=
  let n := N_of_ascii c in
  is_digit c || ((97 <=? n) && (n <=? 102))%N.

(** An upper-case hexadecimal digit: [0-9] or [A-F]. *)
Definition is_upper_hex (c : ascii) : bool :=
  let n := N_of_ascii c in
  is_digit c || ((65 <=? n) && (n <=? 70))%N.

(** Text made of ASCII characters only. *)
Definition is_ascii (s : string) : bool :=
  all_chars (fun c => (N_of_ascii c <? 128)%N) s.



End PyStr.

(** ** Python floats *)

Module Float64.

(** [2 ^ e] *)
Definition pow2 (e : Z) : Q := ((2 # 1) ^ e)%Q.

(** [floor (log2 x)] for [0 < x]. *)
Definition ilog2 (x : Q) : Z :=
  let e0 := (Z.log2 (Qnum x) - Z.log2 (Zpos (Qden x)))%Z in
  if Qle_bool (pow2 e0) x then e0 else (e0 - 1)%Z.

(** The exponent of the unit in the last place of the binary64 values
    around [x]: 53 significant bits, and [2 ^ -1074] at the least. *)
Definition ulp_exp (x : Q) : Z := Z.max (ilog2 x - 52) (-1074).

(** The integer nearest to [y], the even one when two are nearest. *)
Definition rne (y : Q) : Z :=
  let f := Qfloor y in
  match (y - inject_Z f ?= 1 # 2)%Q with
  | Lt => f
  | Gt => (f + 1)%Z
  | Eq => if Z.even f then f else (f + 1)%Z
  end.

(** Rounding of a positive number. *)
Definition round_pos (x : Q) : Q :=
  let k := ulp_exp x in (inject_Z (rne (x / pow2 k)) * pow2 k)%Q.

(** Rounding to the nearest binary64 value, ties to even.  A result beyond
    the largest float is left as the number it is, where the machine gives
    an infinity: the two compare alike with every integer. *)
Definition round (x : Q) : Q :=
  match (x ?= 0)%Q with
  | Eq => 0%Q
  | Gt => round_pos x
  | Lt => (- round_pos (- x))%Q
  end.

(** [a - b] on floats. *)
Definition sub (a b : Q) : Q := round (a - b).

(** The number a finite binary64 value of the kernel stands for. *)
Definition float_value (f : float) : option Q :=
  match Prim2SF f with
  | S754_zero _ => Some 0%Q
  | S754_finite s m e =>
      Some ((if s then - inject_Z (Zpos m) else inject_Z (Zpos m))
            * pow2 e)%Q
  | _ => None
  end.

(** [sub] gives what the subtraction of the kernel's binary64 floats gives
    at [a] and [b]. *)
Definition sub_agrees (a b : float) : bool :=
  match float_value a, float_value b, float_value (a - b)%float with
  | Some x, Some y, Some z => Qeq_bool (sub x y) z
  | _, _, _ => false
  end.

End Float64.

(** ** The [uuid] module of the Python standard library *)

Module Uuid.

(** A UUID is represented by its 128-bit [int] field. *)
Definition UUID := N.

(** [uuid.uuid4()]: sixteen random bytes read as a big-endian integer,
    with the RFC 4122 variant and the version number 4 forced in:
<<
    int &= ~(0xc000 << 48);  int |= 0x8000 << 48
    int &= ~(0xf000 << 64);  int |= 4 << 76
>>
    The argument is the integer value of the random bytes. *)
Definition uuid4 (random : N) : UUID :=
  let i := (random mod 2 ^ 128)%N in
  let i := N.ldiff i (N.shiftl 0xc000 48) in
  let i := N.lor i (N.shiftl 0x8000 48) in
  let i := N.ldiff i (N.shiftl 0xf000 64) in
  N.lor i (N.shiftl 4 76).

(** One digit of ['%x']. *)
Definition hex_digit (n : N) : ascii :=
  match n with
  | 0 => "0" | 1 => "1" | 2 => "2" | 3 => "3"
  | 4 => "4" | 5 => "5" | 6 => "6" | 7 => "7"
  | 8 => "8" | 9 => "9" | 10 => "a" | 11 => "b"
  | 12 => "c" | 13 => "d" | 14 => "e" | _ => "f"
  end%N%char.

(** The [k] low nibbles of [n], most significant first: ['%0kx' % n]
    for [n < 16 ^ k]. *)
Fixpoint hex_digits (k : nat) (n : N) : string :=
  match k with
  | O => EmptyString
  | S k' =>
      String (hex_digit (N.land (N.shiftr n (4 * N.of_nat k')) 15))
             (hex_digits k' n)
  end.

(** [u.hex]: ['%032x' % u.int] *)
Definition hex (u : UUID) : string := hex_digits 32 u.

(** [str(u)]: the hex digits grouped 8-4-4-4-12. *)
Definition str (u : UUID) : string :=
  let h := hex u in
  PyStr.slice 0 8 h ++ "-" ++ PyStr.slice 8 12 h ++ "-" ++
  PyStr.slice 12 16 h ++ "-" ++ PyStr.slice 16 20 h ++ "-" ++
  PyStr.drop 20 h.

End Uuid.

(** ** Python dictionaries, in insertion order *)

Module Dict.

Section Ops.
Context {V : Type}.

Definition t := list (string * V).

Definition keys (d : t) : list string := map fst d.
Definition values (d : t) : list V := map snd d.

(** [d.get(k)] *)
Fixpoint get (k : string) (d : t) : option V :=
  match d with
  | [] => None
  | (k', v) :: rest => if String.eqb k' k then Some v else get k rest
  end.

(** [k in d] *)
Definition mem (k : string) (d : t) : bool :=
  match get k d with Some _ => true | None => false end.

(** [d[k] = v]: an existing key keeps its position and takes the new
    value, a new key goes last. *)
Fixpoint set (k : string) (v : V) (d : t) : t :=
  match d with
  | [] => [(k, v)]
  | (k', v') :: rest =>
      if String.eqb k' k then (k', v) :: rest
      else (k', v') :: set k v rest
  end.

(** In-place update of the value object stored under [k], as done by
    [d[k][field] = x].  The handlers only call it with a key obtained
    from iterating over [d], so the [KeyError] of a missing key is never
    raised; the model leaves [d] alone there. *)
Fixpoint adjust (k : string) (f : V -> V) (d : t) : t :=
  match d with
  | [] => []
  | (k', v) :: rest =>
      if String.eqb k' k then (k', f v) :: rest
      else (k', v) :: adjust k f rest
  end.

(** Keys of a dictionary are pairwise distinct. *)
Definition wf (d : t) : Prop := NoDup (keys d).

End Ops.

Arguments t : clear implicits.

End Dict.

(** ** The server *)

(** The values taken by the ['status'] entry of a record and by the
    ["status"] field of a status response. *)
Inductive Status : Type :=
| pending
| authorized
| expired.

(** [s1 == s2] on status strings. *)
Definition status_eqb (s1 s2 : Status) : bool :=
  match s1, s2 with
  | pending, pending | authorized, authorized | expired, expired => true
  | _, _ => false
  end.

(** One value of [device_codes]: the dictionary literal built by
    [device_start]. *)
Record PairingRecord : Type := mkRecord {
  user_code : string;
  status : Status;
  created : Q;
  expires_in : Z
}.

(** [data['status'] = s] *)
Definition set_status (s : Status) (data : PairingRecord) : PairingRecord :=
  {| user_code := user_code data;
     status := s;
     created := created data;
     expires_in := expires_in data |}.

(** The global [device_codes], keyed by device code. *)
Definition Store : Type := Dict.t PairingRecord.

(** Response bodies.  The two HTML pages of [/approve] are kept apart by
    constructor and carry the interpolated code. *)
Inductive Body : Type :=
| StartBody (device_code user_code verification_uri : string)
            (expires_in interval : Z)
| StatusBody (status : Status)
| TokenBody (access_token refresh_token : string) (expires_in : Z)
| ErrorBody (error : string)
| AuthorizedPage (code : string)
| NotFoundPage (code : string).

(** An HTTP status code with a body. *)
Definition Response : Type := (Z * Body)%type.

Definition ok (b : Body) : Response := (200%Z, b).

(** [x > y] on clock readings. *)
Definition Qgtb (x y : Q) : bool := negb (Qle_bool x y).

(** [time.time() - data['created'] > data['expires_in']]: a float
    difference compared with an integer. *)
Definition is_expired (now : Q) (data : PairingRecord) : bool :=
  Qgtb (Float64.sub now (created data)) (inject_Z (expires_in data)).

(** [f"SWIFT-{uuid.uuid4().hex[:4].upper()}"]; the text upper-cased is
    made of hex digits. *)
Definition make_user_code (u : Uuid.UUID) : string :=
  "SWIFT-" ++ PyStr.upper (PyStr.take 4 (Uuid.hex u)).

(** The loop of [approve]: the key of the first item, in insertion order,
    whose ['user_code'] equals [code]. *)
Fixpoint find_user_code (code : string) (items : Store) : option string :=
  match items with
  | [] => None
  | (device_code, data) :: rest =>
      if String.eqb (user_code data) code then Some device_code
      else find_user_code code rest
  end.

(** [GET /approve?code=...]; [arg] is [request.args.get('code')] and
    [upper] is [str.upper]. *)
Definition approve (upper : string -> string) (arg : option string)
  (device_codes : Store) : Response * Store :=
  let code := upper (match arg with Some c => c | None => EmptyString end) in
  match find_user_code code device_codes with
  | Some device_code =>
      (ok (AuthorizedPage code),
       Dict.adjust device_code (set_status authorized) device_codes)
  | None => (ok (NotFoundPage code), device_codes)
  end.

(** [POST /api/v1/auth/device/start]; [r1] and [r2] feed the two calls of
    [uuid.uuid4()], [now] is [time.time()]. *)
Definition device_start (r1 r2 : N) (now : Q) (device_codes : Store)
  : Response * Store :=
  let device_code := Uuid.str (Uuid.uuid4 r1) in
  let user_code := make_user_code (Uuid.uuid4 r2) in
  let device_codes :=
    Dict.set device_code
      {| user_code := user_code;
         status := pending;
         created := now;
         expires_in := 600 |} device_codes in
  (ok (StartBody device_code user_code
         "http://106.54.188.236:8080/console" 600 5),
   device_codes).

(** [GET /api/v1/auth/device/status?device_code=...]; [arg] is
    [request.args.get('device_code')], [now] is [time.time()]. *)
Definition device_status (arg : option string) (now : Q)
  (device_codes : Store) : Response * Store :=
  match arg with
  | Some device_code =>
      match Dict.get device_code device_codes with
      | Some data =>
          if is_expired now data then (ok (StatusBody expired), device_codes)
          else (ok (StatusBody (status data)), device_codes)
      | None => (ok (StatusBody pending), device_codes)
      end
  | None => (ok (StatusBody pending), device_codes)
  end.

(** The test of [device_token]:
    [device_code in device_codes and
     device_codes[device_code]['status'] == 'authorized'] *)
Definition is_authorized (arg : option string) (device_codes : Store) : bool :=
  match arg with
  | Some device_code =>
      Dict.mem device_code device_codes
      && match Dict.get device_code device_codes with
         | Some data => status_eqb (status data) authorized
         | None => false
         end
  | None => false
  end.

(** [POST /api/v1/auth/device/token]; [arg] is [body.get('device_code')],
    a string or [None] (other JSON values are outside the model), [r1] and
    [r2] feed the two calls of [uuid.uuid4()] of the success branch. *)
Definition device_token (arg : option string) (r1 r2 : N)
  (device_codes : Store) : Response * Store :=
  if is_authorized arg device_codes then
    (ok (TokenBody ("access_" ++ Uuid.hex (Uuid.uuid4 r1))
                   ("refresh_" ++ Uuid.hex (Uuid.uuid4 r2)) 3600),
     device_codes)
  else ((400%Z, ErrorBody "not_authorized"), device_codes).

(** ** Runs of the server *)

(** The requests that read or write [device_codes], each with the random
    bytes and clock reading its handler consumes. *)
Inductive Request : Type :=
| Start (r1 r2 : N) (now : Q)
| Approve (code : option string)
| GetStatus (device_code : option string) (now : Q)
| Token (device_code : option string) (r1 r2 : N).

Definition handle (upper : string -> string) (req : Request)
  (device_codes : Store) : Response * Store :=
  match req with
  | Start r1 r2 now => device_start r1 r2 now device_codes
  | Approve code => approve upper code device_codes
  | GetStatus device_code now => device_status device_code now device_codes
  | Token device_code r1 r2 => device_token device_code r1 r2 device_codes
  end.

(** The store after a sequence of requests. *)
Fixpoint run (upper : string -> string) (reqs : list Request)
  (device_codes : Store) : Store :=
  match reqs with
  | [] => device_codes
  | req :: rest => run upper rest (snd (handle upper req device_codes))
  end.

(** The store of a server that has handled [reqs] since it started
    ([device_codes = {}]). *)
Definition store_after (upper : string -> string) (reqs : list Request)
  : Store := run upper reqs [].

(** The user codes handed out by the [Start] requests of a run. *)
Fixpoint issued_user_codes (reqs : list Request) : list string :=
  match reqs with
  | [] => []
  | Start _ r2 _ :: rest =>
      make_user_code (Uuid.uuid4 r2) :: issued_user_codes rest
  | _ :: rest => issued_user_codes rest
  end.

(** A user code of the form [SWIFT-XXXX], [XXXX] four upper-case
    alphanumeric characters. *)
Definition is_user_code (s : string) : bool :=
  (PyStr.take 6 s =? "SWIFT-")%string
  && (String.length s =? 10)%nat
  && PyStr.all_chars PyStr.is_upper_alnum (PyStr.drop 6 s).

(** The live records of the data model, read on this server: a record is
    live at [now] when it is neither older than its time to live nor
    stored as [expired] (no status [consumed] exists here). *)
Definition live (now : Q) (data : PairingRecord) : bool :=
  negb (is_expired now data)
  && match status data with expired => false | _ => true end.

(** ** Notions used in the statements *)

(** The nibble of [u] printed at position [31 - k] of [u.hex]. *)
Definition nibble (u : N) (k : N) : N := N.land (N.shiftr u (4 * k)) 15.

(** The four characters after [SWIFT-] in a generated user code. *)
Definition code_char (u : Uuid.UUID) (k : N) : ascii :=
  PyStr.upper_char (Uuid.hex_digit (nibble u k)).

(** What every record ever stored satisfies. *)
Definition record_ok (d : PairingRecord) : Prop :=
  (status d = pending \/ status d = authorized) /\
  expires_in d = 600%Z /\
  is_user_code (user_code d) = true /\
  PyStr.upper (user_code d) = user_code d.

Definition store_ok (s : Store) : Prop :=
  Dict.wf s /\ forall k d, In (k, d) s -> record_ok d.

(** What is known of [str.upper]: on ASCII text it is [PyStr.upper]. *)
Definition upper_on_ascii (upper : string -> string) : Prop :=
  forall s, PyStr.is_ascii s = true -> upper s = PyStr.upper s.

(** The reading of the status rule under which only pending records
    expire: a status call answers [expired] only for a record that is both
    older than its time to live and still stored as [pending]. *)
Definition expired_only_if_pending : Prop :=
  forall upper, upper_on_ascii upper ->
  forall reqs dc now d,
    Dict.get dc (store_after upper reqs) = Some d ->
    fst (device_status (Some dc) now (store_after upper reqs))
      = ok (StatusBody expired) ->
    is_expired now d = true /\ status d = pending.

(** A pairing started at clock reading 1700000000 and then approved. *)
Definition approved_then_old : list Request :=
  [Start 0x3b241101e2bb4255ad7c6a2e5f0d9c41
         0x9f3c52d07a1e4b6688a1c0d2e4f60718 1700000000;
   Approve (Some "swift-9f3c")].

(** The record looked up by a token request is stored as [authorized]. *)
Definition authorized_record (arg : option string) (s : Store) : Prop :=
  exists dc d,
    arg = Some dc /\ Dict.get dc s = Some d /\ status d = authorized.

(** The store holds a record for the device code of a token request, and
    its status is [authorized]. *)
Definition holds_authorized (arg : option string) (s : Store) : Prop :=
  exists dc d, arg = Some dc /\ In (dc, d) s /\ status d = authorized.

(** The body of a successful token response. *)
Definition token_body (r1 r2 : N) : Body :=
  TokenBody ("access_" ++ Uuid.hex (Uuid.uuid4 r1))
            ("refresh_" ++ Uuid.hex (Uuid.uuid4 r2)) 3600.

(** The text compared by [approve]: the upper-cased [code] argument, the
    empty string when the argument is missing. *)
Definition submitted (upper : string -> string) (arg : option string)
  : string :=
  upper (match arg with Some c => c | None => EmptyString end).

(** Two pairings whose user-code UUIDs start with the same four hex
    digits, started one second apart. *)
Definition colliding_starts : list Request :=
  [Start 0x3b241101e2bb4255ad7c6a2e5f0d9c41
         0xab1f52d07a1e4b6688a1c0d2e4f60718 1700000000;
   Start 0x7d90c3e45f12468b9a0be1c2d3f4a5b6
         0xab1f0c9e13d7425f8e6b7a90c1d2e3f4 1700000001].

(** The testable property as the specification words it: after a
    successful approve, a status call for the device code of any record
    carrying the submitted user code answers [authorized]. *)
Definition approved_reads_authorized : Prop :=
  forall upper, upper_on_ascii upper ->
  forall reqs arg k d now,
    let s := store_after upper reqs in
    In (k, d) s ->
    user_code d = submitted upper arg ->
    fst (approve upper arg s) = ok (AuthorizedPage (submitted upper arg)) ->
    fst (device_status (Some k) now (snd (approve upper arg s)))
      = ok (StatusBody authorized).

(** One pairing, started at clock reading 1700000000. *)
Definition one_start : list Request :=
  [Start 0x3b241101e2bb4255ad7c6a2e5f0d9c41
         0x9f3c52d07a1e4b6688a1c0d2e4f60718 1700000000].

(** The record stored by [device_start]. *)
Definition new_record (r2 : N) (now : Q) : PairingRecord :=
  {| user_code := make_user_code (Uuid.uuid4 r2);
     status := pending;
     created := now;
     expires_in := 600 |}.

(** The first two of the sixteen random bytes behind a UUID: the sixteen
    bits printed as the first four hex digits. *)
Definition code_bits (r : N) : N := N.shiftr (r mod 2 ^ 128) 112%N.

(** The user codes of the stored records, in insertion order. *)
Definition stored_user_codes (s : Store) : list string :=
  map user_code (Dict.values s).

(** The invariant as the specification words it: at any time, two records
    that are both live carry different user codes. *)
Definition live_user_codes_unique : Prop :=
  forall upper, upper_on_ascii upper ->
  forall reqs now k1 d1 k2 d2,
    let s := store_after upper reqs in
    In (k1, d1) s -> In (k2, d2) s ->
    live now d1 = true -> live now d2 = true ->
    user_code d1 = user_code d2 ->
    k1 = k2.

(** The random integers behind the user codes of the start requests of a
    run. *)
Fixpoint user_code_draws (reqs : list Request) : list N :=
  match reqs with
  | [] => []
  | Start _ r2 _ :: rest => r2 :: user_code_draws rest
  | _ :: rest => user_code_draws rest
  end.

(** Two pairings whose user-code UUIDs start with different hex digits. *)
Definition distinct_starts : list Request :=
  [Start 0x3b241101e2bb4255ad7c6a2e5f0d9c41
         0x9f3c52d07a1e4b6688a1c0d2e4f60718 1700000000;
   Start 0x7d90c3e45f12468b9a0be1c2d3f4a5b6
         0xab1f0c9e13d7425f8e6b7a90c1d2e3f4 1700000001].

(** ** The refresh endpoint and measures of a run *)

(** [POST /api/v1/auth/refresh]; [r1] and [r2] feed the two calls of
    [uuid.uuid4()].  The handler reads neither the request nor
    [device_codes]. *)
Definition refresh (r1 r2 : N) (device_codes : Store) : Response * Store :=
  (ok (TokenBody ("access_" ++ Uuid.hex (Uuid.uuid4 r1))
                 ("refresh_" ++ Uuid.hex (Uuid.uuid4 r2)) 3600),
   device_codes).

(** The number of start requests of a run. *)
Fixpoint count_starts (reqs : list Request) : nat :=
  match reqs with
  | [] => O
  | Start _ _ _ :: rest => S (count_starts rest)
  | _ :: rest => count_starts rest
  end.

(** The device codes handed out by the start requests of a run. *)
Fixpoint issued_device_codes (reqs : list Request) : list string :=
  match reqs with
  | [] => []
  | Start r1 _ _ :: rest =>
      Uuid.str (Uuid.uuid4 r1) :: issued_device_codes rest
  | _ :: rest => issued_device_codes rest
  end.

(** The texts compared by the approve requests of a run. *)
Fixpoint approved_codes (upper : string -> string) (reqs : list Request)
  : list string :=
  match reqs with
  | [] => []
  | Approve arg :: rest => submitted upper arg :: approved_codes upper rest
  | _ :: rest => approved_codes upper rest
  end.

(** A token string: [prefix] followed by 32 lower-case hex digits. *)
Definition is_token (prefix t : string) : bool :=
  let n := String.length prefix in
  (PyStr.take n t =? prefix)%string
  && (String.length (PyStr.drop n t) =? 32)%nat
  && PyStr.all_chars PyStr.is_lower_hex (PyStr.drop n t).

(** The start rule as the specification words it: every start request
    inserts exactly one new record. *)
Definition start_adds_one_record : Prop :=
  forall upper, upper_on_ascii upper ->
  forall reqs r1 r2 now,
    let s := store_after upper reqs in
    List.length (snd (device_start r1 r2 now s)) = S (List.length s).

(** The binary64 values nearest to 0.1 and to 600.1. *)
Definition float_0_1 : Q := 3602879701896397 # 36028797018963968.
Definition float_600_1 : Q := 5278535422627021 # 8796093022208.

(** One pairing, started at clock reading 0.1. *)
Definition start_at_0_1 : list Request :=
  [Start 0x3b241101e2bb4255ad7c6a2e5f0d9c41
         0x9f3c52d07a1e4b6688a1c0d2e4f60718 float_0_1].

(** Reading the 32 hex digits back from the 8-4-4-4-12 form. *)
Definition unstr (s : string) : string :=
  PyStr.slice 0 8 s ++ PyStr.slice 9 13 s ++ PyStr.slice 14 18 s ++
  PyStr.slice 19 23 s ++ PyStr.drop 24 s.

(** * Properties *)

(** ** Sanity checks of the model *)

Example str_uuid4_0 :
  Uuid.str (Uuid.uuid4 0) = "00000000-0000-4000-8000-000000000000".
Proof. vm_compute. reflexivity. Qed.

Example make_user_code_ex :
  make_user_code (Uuid.uuid4 (0xab1f * 2 ^ 112 + 77)) = "SWIFT-AB1F".
Proof. vm_compute. reflexivity. Qed.

Section Properties.

(** [str.upper], of which the proofs use nothing but what their
    statements say. *)
Variable upper : string -> string.

(** ** Strings and UUIDs *)

Lemma upper_char_idem (c : ascii) :
  PyStr.upper_char (PyStr.upper_char c) = PyStr.upper_char c.
Proof.
  destruct c as [[] [] [] [] [] [] [] []]; reflexivity.
Qed.

Lemma upper_idem (s : string) : PyStr.upper (PyStr.upper s) = PyStr.upper s.
Proof.
  induction s as [|c s IH]; simpl; [reflexivity|].
  now rewrite upper_char_idem, IH.
Qed.

Lemma hex_digit_lower_hex (n : N) :
  PyStr.is_lower_hex (Uuid.hex_digit n) = true.
Proof.
  destruct n as [|p]; [reflexivity|].
  do 4 (try destruct p as [p|p|]); reflexivity.
Qed.

Lemma upper_char_hex (c : ascii) :
  PyStr.is_lower_hex c = true ->
  PyStr.is_upper_hex (PyStr.upper_char c) = true.
Proof.
  destruct c as [[] [] [] [] [] [] [] []]; vm_compute; congruence.
Qed.

Lemma upper_hex_alnum (c : ascii) :
  PyStr.is_upper_hex c = true -> PyStr.is_upper_alnum c = true.
Proof.
  destruct c as [[] [] [] [] [] [] [] []]; vm_compute; congruence.
Qed.

Lemma upper_hex_fixed (c : ascii) :
  PyStr.is_upper_hex c = true -> PyStr.upper_char c = c.
Proof.
  destruct c as [[] [] [] [] [] [] [] []]; vm_compute; congruence.
Qed.

Lemma hex_prefix (u : Uuid.UUID) :
  PyStr.take 4 (Uuid.hex u) =
  String (Uuid.hex_digit (nibble u 31))
    (String (Uuid.hex_digit (nibble u 30))
       (String (Uuid.hex_digit (nibble u 29))
          (String (Uuid.hex_digit (nibble u 28)) EmptyString))).
Proof. reflexivity. Qed.

Lemma make_user_code_eq (u : Uuid.UUID) :
  make_user_code u =
  "SWIFT-" ++
  String (code_char u 31) (String (code_char u 30)
    (String (code_char u 29) (String (code_char u 28) EmptyString))).
Proof.
  unfold make_user_code. rewrite hex_prefix. reflexivity.
Qed.

Lemma code_char_upper_hex (u : Uuid.UUID) (k : N) :
  PyStr.is_upper_hex (code_char u k) = true.
Proof. apply upper_char_hex, hex_digit_lower_hex. Qed.

Lemma make_user_code_form (u : Uuid.UUID) :
  is_user_code (make_user_code u) = true.
Proof.
  rewrite make_user_code_eq. unfold is_user_code. cbn -[code_char].
  rewrite !(upper_hex_alnum _ (code_char_upper_hex _ _)). reflexivity.
Qed.

Lemma make_user_code_upper (u : Uuid.UUID) :
  PyStr.upper (make_user_code u) = make_user_code u.
Proof.
  rewrite make_user_code_eq. cbn -[code_char].
  now rewrite !(upper_hex_fixed _ (code_char_upper_hex _ _)).
Qed.

(** ** The random bits behind a user code *)

Section CodeBits.
Local Open Scope N_scope.

Lemma nibble_mod (u k : N) : nibble u k = (u / 2 ^ (4 * k)) mod 16.
Proof.
  unfold nibble. rewrite N.shiftr_div_pow2.
  change 15 with (N.ones 4). rewrite N.land_ones. reflexivity.
Qed.

Lemma nibble_lt (u k : N) : nibble u k < 16.
Proof. rewrite nibble_mod. apply N.mod_lt. discriminate. Qed.

Lemma hex_digit_inj (a b : N) :
  a < 16 -> b < 16 ->
  PyStr.upper_char (Uuid.hex_digit a) = PyStr.upper_char (Uuid.hex_digit b) ->
  a = b.
Proof.
  intros Ha Hb.
  assert (Ea : In a [0;1;2;3;4;5;6;7;8;9;10;11;12;13;14;15]) by (cbn; lia).
  assert (Eb : In b [0;1;2;3;4;5;6;7;8;9;10;11;12;13;14;15]) by (cbn; lia).
  cbn in Ea, Eb.
  repeat (destruct Ea as [<-|Ea];
          [repeat (destruct Eb as [<-|Eb];
                   [vm_compute; intros; first [reflexivity|discriminate]|]);
           contradiction|]).
  contradiction.
Qed.

Lemma testbit_const_high (c n j : N) :
  c < 2 ^ 16 -> n + 16 <= j -> N.testbit (N.shiftl c n) j = false.
Proof.
  intros Hc Hj. rewrite N.shiftl_spec_high' by lia.
  destruct (N.eq_dec c 0) as [->|Hne]; [apply N.bits_0|].
  apply N.bits_above_log2. apply N.log2_lt_pow2 in Hc; lia.
Qed.

Lemma uuid4_high_bits (r j : N) :
  92 <= j -> N.testbit (Uuid.uuid4 r) j = N.testbit (r mod 2 ^ 128) j.
Proof.
  intros Hj. unfold Uuid.uuid4.
  rewrite N.lor_spec, N.ldiff_spec, N.lor_spec, N.ldiff_spec.
  rewrite !testbit_const_high by (first [reflexivity | lia]).
  cbn [negb andb orb]. now rewrite !andb_true_r, !orb_false_r.
Qed.

Lemma nibble_uuid4 (r k : N) :
  23 <= k -> nibble (Uuid.uuid4 r) k = nibble (r mod 2 ^ 128) k.
Proof.
  intros Hk. unfold nibble. apply N.bits_inj. intros i.
  rewrite !N.land_spec, !N.shiftr_spec', uuid4_high_bits by lia. reflexivity.
Qed.

Lemma nibble_code_bits (r j : N) :
  nibble (r mod 2 ^ 128) (28 + j) = (code_bits r / 2 ^ (4 * j)) mod 16.
Proof.
  rewrite nibble_mod. unfold code_bits. rewrite N.shiftr_div_pow2.
  replace (4 * (28 + j)) with (112 + 4 * j) by lia.
  rewrite N.pow_add_r, N.Div0.div_div. reflexivity.
Qed.

Lemma code_bits_lt (r : N) : code_bits r < 2 ^ 16.
Proof.
  unfold code_bits. rewrite N.shiftr_div_pow2.
  apply N.Div0.div_lt_upper_bound.
  change (2 ^ 112 * 2 ^ 16) with (2 ^ 128). apply N.mod_lt. discriminate.
Qed.

Lemma four_nibbles (y : N) :
  y < 2 ^ 16 ->
  y = (y / 2 ^ (4 * 0)) mod 16 + 16 * ((y / 2 ^ (4 * 1)) mod 16)
      + 256 * ((y / 2 ^ (4 * 2)) mod 16) + 4096 * ((y / 2 ^ (4 * 3)) mod 16).
Proof.
  intros Hy. change (2 ^ 16) with 65536 in Hy.
  change (2 ^ (4 * 0)) with 1. change (2 ^ (4 * 1)) with 16.
  change (2 ^ (4 * 2)) with (16 * 16). change (2 ^ (4 * 3)) with (16 * 16 * 16).
  rewrite N.div_1_r, <- !N.Div0.div_div.
  pose proof (N.div_mod' y 16) as H0.
  pose proof (N.div_mod' (y / 16) 16) as H1.
  pose proof (N.div_mod' (y / 16 / 16) 16) as H2.
  pose proof (N.div_mod' (y / 16 / 16 / 16) 16) as H3.
  assert (y / 16 / 16 / 16 / 16 = 0).
  { rewrite !N.Div0.div_div. apply N.div_small. exact Hy. }
  lia.
Qed.

Lemma code_bits_of_chars (r r' : N) :
  (forall j, j < 4 ->
     code_char (Uuid.uuid4 r) (28 + j) = code_char (Uuid.uuid4 r') (28 + j)) ->
  code_bits r = code_bits r'.
Proof.
  intros H.
  assert (Hn : forall j, j < 4 ->
            (code_bits r / 2 ^ (4 * j)) mod 16
            = (code_bits r' / 2 ^ (4 * j)) mod 16).
  { intros j Hj. rewrite <- !nibble_code_bits, <- !nibble_uuid4 by lia.
    apply hex_digit_inj; try apply nibble_lt. now apply H. }
  rewrite (four_nibbles _ (code_bits_lt r)), (four_nibbles _ (code_bits_lt r')).
  rewrite (Hn 0), (Hn 1), (Hn 2), (Hn 3) by lia. reflexivity.
Qed.

Lemma make_user_code_collide (r r' : N) :
  make_user_code (Uuid.uuid4 r) = make_user_code (Uuid.uuid4 r') <->
  code_bits r = code_bits r'.
Proof.
  rewrite !make_user_code_eq. split.
  - intros [= H31 H30 H29 H28]. apply code_bits_of_chars. intros j Hj.
    assert (Ej : j = 0 \/ j = 1 \/ j = 2 \/ j = 3) by lia.
    destruct Ej as [-> | [-> | [-> | ->]]]; assumption.
  - intros H.
    assert (Hc : forall j, j < 4 ->
              code_char (Uuid.uuid4 r) (28 + j)
              = code_char (Uuid.uuid4 r') (28 + j)).
    { intros j Hj. unfold code_char.
      rewrite !nibble_uuid4, !nibble_code_bits by lia. now rewrite H. }
    pose proof (Hc 0 eq_refl) as H0. pose proof (Hc 1 eq_refl) as H1.
    pose proof (Hc 2 eq_refl) as H2. pose proof (Hc 3 eq_refl) as H3.
    change (28 + 0) with 28 in H0. change (28 + 1) with 29 in H1.
    change (28 + 2) with 30 in H2. change (28 + 3) with 31 in H3.
    now rewrite H0, H1, H2, H3.
Qed.

End CodeBits.

(** ** Hex digits and the text of a UUID *)

Lemma hex_digits_length (k : nat) (n : N) :
  String.length (Uuid.hex_digits k n) = k.
Proof.
  induction k as [|k IH]; [reflexivity|].
  change (S (String.length (Uuid.hex_digits k n)) = S k). congruence.
Qed.

Lemma hex_digits_lower (k : nat) (n : N) :
  PyStr.all_chars PyStr.is_lower_hex (Uuid.hex_digits k n) = true.
Proof.
  induction k as [|k IH]; [reflexivity|].
  change (PyStr.is_lower_hex (Uuid.hex_digit (nibble n (N.of_nat k)))
          && PyStr.all_chars PyStr.is_lower_hex (Uuid.hex_digits k n) = true).
  now rewrite hex_digit_lower_hex, IH.
Qed.

Lemma unstr_str (u : Uuid.UUID) : unstr (Uuid.str u) = Uuid.hex u.
Proof. reflexivity. Qed.

Lemma str_length (u : Uuid.UUID) : String.length (Uuid.str u) = 36%nat.
Proof. reflexivity. Qed.

Section HexFacts.
Local Open Scope N_scope.

Lemma hex_digit_inj' (a b : N) :
  a < 16 -> b < 16 -> Uuid.hex_digit a = Uuid.hex_digit b -> a = b.
Proof.
  intros Ha Hb E. apply hex_digit_inj; try assumption. now rewrite E.
Qed.

Lemma hex_digits_nibbles (k : nat) (n m : N) :
  Uuid.hex_digits k n = Uuid.hex_digits k m ->
  forall j, (j < k)%nat -> nibble n (N.of_nat j) = nibble m (N.of_nat j).
Proof.
  induction k as [|k IH]; intros E j Hj; [lia|].
  change (String (Uuid.hex_digit (nibble n (N.of_nat k)))
                 (Uuid.hex_digits k n)
          = String (Uuid.hex_digit (nibble m (N.of_nat k)))
                   (Uuid.hex_digits k m)) in E.
  injection E as Ec Er.
  destruct (Nat.eq_dec j k) as [->|Hne].
  - apply hex_digit_inj'; try apply nibble_lt. exact Ec.
  - apply IH; [assumption|lia].
Qed.

Lemma testbit_nibble (n j b : N) :
  b < 4 -> N.testbit (nibble n j) b = N.testbit n (4 * j + b).
Proof.
  intros Hb. unfold nibble. rewrite N.land_spec, N.shiftr_spec'.
  replace (b + 4 * j) with (4 * j + b) by lia.
  assert (Eb : b = 0 \/ b = 1 \/ b = 2 \/ b = 3) by lia.
  destruct Eb as [-> | [-> | [-> | ->]]]; cbn; apply andb_true_r.
Qed.

Lemma nibbles_mod (k : nat) (n m : N) :
  (forall j, (j < k)%nat -> nibble n (N.of_nat j) = nibble m (N.of_nat j)) ->
  n mod 2 ^ (4 * N.of_nat k) = m mod 2 ^ (4 * N.of_nat k).
Proof.
  intros H. apply N.bits_inj. intros i.
  destruct (N.lt_ge_cases i (4 * N.of_nat k)) as [Hi|Hi].
  - rewrite !N.mod_pow2_bits_low by assumption.
    pose proof (N.div_mod' i 4) as Hdm.
    assert (Hb : i mod 4 < 4) by (apply N.mod_lt; discriminate).
    set (q := i / 4) in *. set (b := i mod 4) in *. clearbody q b. subst i.
    rewrite <- !testbit_nibble by assumption.
    rewrite <- (N2Nat.id q). rewrite H; [reflexivity|]. lia.
  - now rewrite !N.mod_pow2_bits_high.
Qed.

Lemma uuid4_lt (r : N) : Uuid.uuid4 r < 2 ^ 128.
Proof.
  assert (E : Uuid.uuid4 r mod 2 ^ 128 = Uuid.uuid4 r).
  { apply N.bits_inj. intros i.
    destruct (N.lt_ge_cases i 128) as [Hi|Hi].
    - now rewrite N.mod_pow2_bits_low.
    - rewrite N.mod_pow2_bits_high by assumption.
      rewrite uuid4_high_bits by lia.
      now rewrite N.mod_pow2_bits_high. }
  rewrite <- E. apply N.mod_lt. discriminate.
Qed.

Lemma uuid4_hex_inj (r r' : N) :
  Uuid.hex (Uuid.uuid4 r) = Uuid.hex (Uuid.uuid4 r') ->
  Uuid.uuid4 r = Uuid.uuid4 r'.
Proof.
  intros E.
  pose proof (nibbles_mod 32 _ _ (hex_digits_nibbles 32 _ _ E)) as Hm.
  change (2 ^ (4 * N.of_nat 32)) with (2 ^ 128) in Hm.
  now rewrite !N.mod_small in Hm by apply uuid4_lt.
Qed.

Lemma device_code_inj (r r' : N) :
  Uuid.str (Uuid.uuid4 r) = Uuid.str (Uuid.uuid4 r') ->
  Uuid.uuid4 r = Uuid.uuid4 r'.
Proof.
  intros E. apply (f_equal unstr) in E. rewrite !unstr_str in E.
  now apply uuid4_hex_inj.
Qed.

End HexFacts.

Lemma uuid4_version (r : N) : nibble (Uuid.uuid4 r) 19 = 4%N.
Proof.
  apply N.bits_inj. intros i. unfold nibble, Uuid.uuid4.
  rewrite N.land_spec, N.shiftr_spec', N.lor_spec, N.ldiff_spec.
  assert (Ei : (i = 0 \/ i = 1 \/ i = 2 \/ i = 3 \/ 4 <= i)%N) by lia.
  destruct Ei as [-> | [-> | [-> | [-> | Hi]]]].
  - cbn. now rewrite andb_false_r.
  - cbn. now rewrite andb_false_r.
  - cbn. now rewrite orb_true_r.
  - cbn. now rewrite andb_false_r.
  - replace (N.testbit 15 i) with false; [rewrite andb_false_r|].
    + symmetry. apply N.bits_above_log2. cbn. lia.
    + symmetry. apply N.bits_above_log2. cbn. lia.
Qed.

(** ** Token strings *)

Lemma take_app_length (p t : string) :
  PyStr.take (String.length p) (p ++ t) = p.
Proof.
  induction p as [|c p IH]; cbn; [now destruct t|]. now rewrite IH.
Qed.

Lemma drop_app_length (p t : string) :
  PyStr.drop (String.length p) (p ++ t) = t.
Proof.
  induction p as [|c p IH]; cbn; [now destruct t|]. exact IH.
Qed.

Lemma is_token_hex (prefix : string) (u : Uuid.UUID) :
  is_token prefix (prefix ++ Uuid.hex u) = true.
Proof.
  unfold is_token.
  rewrite take_app_length, drop_app_length, String.eqb_refl.
  unfold Uuid.hex. rewrite hex_digits_length, hex_digits_lower. reflexivity.
Qed.

(** ** Comparing up to letter case *)






Lemma append_inj_l (p a b : string) : p ++ a = p ++ b -> a = b.
Proof.
  induction p as [|c p IH]; cbn; [trivial|]. intros [= H]. auto.
Qed.

(** ** Dictionaries *)

Section DictFacts.
Context {V : Type}.
Implicit Types (d : Dict.t V) (k : string) (v : V).

Lemma get_adjust_same k (f : V -> V) d :
  Dict.get k (Dict.adjust k f d) = option_map f (Dict.get k d).
Proof.
  induction d as [|[k' v] d IH]; simpl; [reflexivity|].
  destruct (String.eqb k' k) eqn:E; simpl; rewrite E; auto.
Qed.

Lemma get_adjust_other k k' (f : V -> V) d :
  k <> k' -> Dict.get k' (Dict.adjust k f d) = Dict.get k' d.
Proof.
  intros Hne. induction d as [|[k0 v] d IH]; simpl; [reflexivity|].
  destruct (String.eqb k0 k) eqn:E; simpl.
  - apply String.eqb_eq in E. subst k0.
    destruct (String.eqb k k') eqn:E'; [|reflexivity].
    apply String.eqb_eq in E'. contradiction.
  - now rewrite IH.
Qed.

Lemma keys_adjust k (f : V -> V) d :
  Dict.keys (Dict.adjust k f d) = Dict.keys d.
Proof.
  induction d as [|[k' v] d IH]; simpl; [reflexivity|].
  destruct (String.eqb k' k); simpl; [reflexivity|].
  f_equal. exact IH.
Qed.

Lemma get_none_keys k d : Dict.get k d = None <-> ~ In k (Dict.keys d).
Proof.
  induction d as [|[k' v] d IH]; simpl.
  - tauto.
  - destruct (String.eqb k' k) eqn:E.
    + apply String.eqb_eq in E. split; [discriminate|]. intros H. tauto.
    + apply String.eqb_neq in E. rewrite IH. tauto.
Qed.

Lemma get_in k v d : Dict.get k d = Some v -> In (k, v) d.
Proof.
  induction d as [|[k' v'] d IH]; simpl; [discriminate|].
  destruct (String.eqb k' k) eqn:E.
  - apply String.eqb_eq in E. intros [= ->]. left. now subst.
  - auto.
Qed.

Lemma in_get k v d : Dict.wf d -> In (k, v) d -> Dict.get k d = Some v.
Proof.
  unfold Dict.wf.
  induction d as [|[k' v'] d IH]; simpl; [tauto|].
  intros Hnd [Heq|Hin].
  - injection Heq as -> ->. now rewrite String.eqb_refl.
  - inversion Hnd as [|? ? Hnotin Hnd']; subst.
    destruct (String.eqb k' k) eqn:E.
    + apply String.eqb_eq in E. subst k'. exfalso. apply Hnotin.
      change (In (fst (k, v)) (map fst d)). now apply in_map.
    + auto.
Qed.

Lemma get_set_same k v d : Dict.get k (Dict.set k v d) = Some v.
Proof.
  induction d as [|[k' v'] d IH]; simpl.
  - now rewrite String.eqb_refl.
  - destruct (String.eqb k' k) eqn:E; simpl; rewrite E; auto.
Qed.

Lemma get_set_other k k' v d :
  k <> k' -> Dict.get k' (Dict.set k v d) = Dict.get k' d.
Proof.
  intros Hne. induction d as [|[k0 v0] d IH]; simpl.
  - destruct (String.eqb k k') eqn:E; [|reflexivity].
    apply String.eqb_eq in E. contradiction.
  - destruct (String.eqb k0 k) eqn:E; simpl.
    + apply String.eqb_eq in E. subst k0.
      destruct (String.eqb k k') eqn:E'; [|reflexivity].
      apply String.eqb_eq in E'. contradiction.
    + now rewrite IH.
Qed.

Lemma set_fresh k v d :
  Dict.get k d = None -> Dict.set k v d = (d ++ [(k, v)])%list.
Proof.
  induction d as [|[k' v'] d IH]; simpl; [reflexivity|].
  destruct (String.eqb k' k); [discriminate|].
  intros H. now rewrite IH.
Qed.

Lemma set_present k v d :
  Dict.get k d <> None -> Dict.keys (Dict.set k v d) = Dict.keys d.
Proof.
  induction d as [|[k' v'] d IH]; simpl; [congruence|].
  destruct (String.eqb k' k) eqn:E; simpl; [reflexivity|].
  intros H. now rewrite IH.
Qed.

Lemma wf_set k v d : Dict.wf d -> Dict.wf (Dict.set k v d).
Proof.
  unfold Dict.wf. intros Hwf.
  destruct (Dict.get k d) as [v0|] eqn:G.
  - rewrite set_present; [assumption|congruence].
  - rewrite (set_fresh _ _ _ G). unfold Dict.keys. rewrite map_app. simpl.
    apply NoDup_app; [assumption|repeat constructor; simpl; tauto|].
    intros x Hx [<-|[]]. now apply get_none_keys in G.
Qed.

Lemma wf_adjust k (f : V -> V) d : Dict.wf d -> Dict.wf (Dict.adjust k f d).
Proof. unfold Dict.wf. now rewrite keys_adjust. Qed.

(** Every value of [Dict.set k v d] is [v] or a value of [d]. *)
Lemma in_set k v d kv :
  In kv (Dict.set k v d) -> kv = (k, v) \/ In kv d.
Proof.
  induction d as [|[k' v'] d IH]; simpl.
  - intros [H|[]]. now left.
  - destruct (String.eqb k' k) eqn:E; simpl.
    + apply String.eqb_eq in E. subst k'.
      intros [H|H]; [now left; symmetry|now right; right].
    + intros [H|H]; [now right; left|].
      apply IH in H. destruct H; [now left|now right; right].
Qed.

Lemma in_adjust k (f : V -> V) d kv :
  In kv (Dict.adjust k f d) ->
  In kv d \/ exists v0, In (k, v0) d /\ kv = (k, f v0).
Proof.
  induction d as [|[k' v'] d IH]; simpl; [tauto|].
  destruct (String.eqb k' k) eqn:E; simpl.
  - apply String.eqb_eq in E. subst k'.
    intros [H|H]; [right; exists v'; auto|tauto].
  - intros [H|H]; [tauto|]. apply IH in H.
    destruct H as [H|[v0 [H1 H2]]]; [tauto|]. right. exists v0. tauto.
Qed.

(** Updating the record at a split point whose key does not occur before
    it. *)
Lemma adjust_split k (f : V -> V) (l1 l2 : Dict.t V) v :
  ~ In k (Dict.keys l1) ->
  Dict.adjust k f (l1 ++ (k, v) :: l2)%list = (l1 ++ (k, f v) :: l2)%list.
Proof.
  induction l1 as [|[k' v'] l1 IH]; simpl.
  - intros _. now rewrite String.eqb_refl.
  - intros H. destruct (String.eqb k' k) eqn:E.
    + apply String.eqb_eq in E. tauto.
    + rewrite IH; [reflexivity|tauto].
Qed.

End DictFacts.

(** ** The scan of [approve] *)

Lemma find_user_code_none (code : string) (s : Store) :
  find_user_code code s = None <->
  forall k d, In (k, d) s -> user_code d <> code.
Proof.
  induction s as [|[k0 d0] s IH]; simpl.
  - split; [intros _ k d []|reflexivity].
  - destruct (String.eqb (user_code d0) code) eqn:E.
    + apply String.eqb_eq in E. split; [discriminate|].
      intros H. exfalso. apply (H k0 d0); auto.
    + apply String.eqb_neq in E. rewrite IH. split.
      * intros H k d [[= <- <-]|Hin]; [assumption|eauto].
      * intros H k d Hin. apply (H k d). now right.
Qed.

Lemma find_user_code_some (code : string) (s : Store) (k : string) :
  find_user_code code s = Some k ->
  exists l1 d l2,
    s = (l1 ++ (k, d) :: l2)%list /\ user_code d = code /\
    forall k' d', In (k', d') l1 -> user_code d' <> code.
Proof.
  induction s as [|[k0 d0] s IH]; simpl; [discriminate|].
  destruct (String.eqb (user_code d0) code) eqn:E.
  - apply String.eqb_eq in E. intros [= ->].
    exists [], d0, s. repeat split; [assumption|intros ? ? []].
  - apply String.eqb_neq in E. intros H.
    destruct (IH H) as (l1 & d & l2 & -> & Hd & Hl1).
    exists ((k0, d0) :: l1), d, l2. repeat split; [assumption|].
    intros k' d' [[= <- <-]|Hin]; [assumption|eauto].
Qed.

(** The scan stops at the first match of a split store. *)
Lemma find_user_code_split (code : string) (l1 l2 : Store) k d :
  (forall k' d', In (k', d') l1 -> user_code d' <> code) ->
  user_code d = code ->
  find_user_code code (l1 ++ (k, d) :: l2)%list = Some k.
Proof.
  intros Hl1 Hd. induction l1 as [|[k0 d0] l1 IH]; simpl.
  - apply String.eqb_eq in Hd. now rewrite Hd.
  - assert (H0 : user_code d0 <> code) by (apply (Hl1 k0); now left).
    apply String.eqb_neq in H0. rewrite H0. apply IH.
    intros k' d' Hin. apply (Hl1 k'). now right.
Qed.

(** ** Invariants of the store *)

Lemma record_ok_set_status (d : PairingRecord) :
  record_ok d -> record_ok (set_status authorized d).
Proof.
  intros (_ & H2 & H3 & H4). repeat split; simpl; auto.
Qed.

Lemma handle_store_ok (req : Request) (s : Store) :
  store_ok s -> store_ok (snd (handle upper req s)).
Proof.
  intros [Hwf Hrec].
  destruct req as [r1 r2 now|code|dc now|dc r1 r2]; cbn [handle].
  - unfold device_start. cbn [snd].
    split; [now apply wf_set|].
    intros k d Hin. apply in_set in Hin. destruct Hin as [[= -> ->]|Hin].
    + unfold record_ok. cbn [status expires_in user_code].
      auto using make_user_code_form, make_user_code_upper.
    + eauto.
  - unfold approve.
    destruct (find_user_code _ s) as [k|]; simpl; [|now split].
    split; [now apply wf_adjust|].
    intros k' d Hin. apply in_adjust in Hin.
    destruct Hin as [Hin|(d0 & Hin & [= -> ->])]; [eauto|].
    apply record_ok_set_status. eauto.
  - unfold device_status. destruct dc as [dc|]; [|now split].
    destruct (Dict.get dc s) as [d|]; [|now split].
    destruct (is_expired now d); now split.
  - unfold device_token. destruct (is_authorized dc s); now split.
Qed.

Lemma run_store_ok (reqs : list Request) (s : Store) :
  store_ok s -> store_ok (run upper reqs s).
Proof.
  revert s. induction reqs as [|req reqs IH]; intros s Hs; cbn [run].
  - assumption.
  - apply IH, handle_store_ok, Hs.
Qed.

Lemma store_after_ok (reqs : list Request) : store_ok (store_after upper reqs).
Proof.
  apply run_store_ok. split; [constructor|intros k d []].
Qed.

(** ** Rounding to binary64 *)

Section Float64Facts.
Import Float64.
Local Open Scope Q_scope.

Lemma two_neq_0 : ~ (2 # 1) == 0.
Proof. discriminate. Qed.

Lemma pow2_pos (e : Z) : 0 < pow2 e.
Proof. apply Qpower_0_lt. reflexivity. Qed.

Lemma pow2_le (a b : Z) : (a <= b)%Z -> pow2 a <= pow2 b.
Proof. intros H. apply Qpower_le_compat_l; [assumption|discriminate]. Qed.

Lemma pow2_plus (a b : Z) : pow2 (a + b) == pow2 a * pow2 b.
Proof. apply Qpower_plus, two_neq_0. Qed.

Lemma pow2_minus (a b : Z) : pow2 (a - b) == pow2 a / pow2 b.
Proof. apply Qpower_minus, two_neq_0. Qed.

Lemma pow2_Z (n : Z) : (0 <= n)%Z -> pow2 n == inject_Z (2 ^ n).
Proof. intros H. unfold pow2. now rewrite (Zpower_Qpower 2 n H). Qed.

Lemma ilog2_spec (x : Q) :
  0 < x -> pow2 (ilog2 x) <= x /\ x < pow2 (ilog2 x + 1).
Proof.
  destruct x as [p q]. intros Hx.
  assert (Hp : (0 < p)%Z).
  { unfold Qlt in Hx. simpl in Hx. lia. }
  unfold ilog2. cbn [Qnum Qden].
  destruct (Z.log2_spec p Hp) as [Ha1 Ha2].
  destruct (Z.log2_spec (Zpos q) (Pos2Z.is_pos q)) as [Hb1 Hb2].
  pose proof (Z.log2_nonneg p) as Ha0.
  pose proof (Z.log2_nonneg (Zpos q)) as Hb0.
  set (a := Z.log2 p) in *. set (b := Z.log2 (Zpos q)) in *.
  assert (Hup : p # q < pow2 (a - b + 1)).
  { replace (a - b + 1)%Z with ((a + 1) - b)%Z by lia.
    rewrite pow2_minus, (pow2_Z (a + 1)), (pow2_Z b) by lia.
    apply Qlt_shift_div_l.
    - change 0 with (inject_Z 0). rewrite <- Zlt_Qlt. lia.
    - unfold Qlt, Qmult, inject_Z. cbn [Qnum Qden].
      rewrite Pos2Z.inj_mul. replace (Z.succ a) with (a + 1)%Z in Ha2 by lia.
      nia. }
  assert (Hlow : pow2 (a - b - 1) <= p # q).
  { replace (a - b - 1)%Z with (a - (b + 1))%Z by lia.
    rewrite pow2_minus, (pow2_Z a), (pow2_Z (b + 1)) by lia.
    apply Qle_shift_div_r.
    - change 0 with (inject_Z 0). rewrite <- Zlt_Qlt. lia.
    - unfold Qle, Qmult, inject_Z. cbn [Qnum Qden].
      rewrite Pos2Z.inj_mul. replace (Z.succ b) with (b + 1)%Z in Hb2 by lia.
      nia. }
  destruct (Qle_bool (pow2 (a - b)) (p # q)) eqn:E.
  - apply Qle_bool_iff in E. split; assumption.
  - split; [assumption|].
    replace (a - b - 1 + 1)%Z with (a - b)%Z by lia.
    apply Qnot_le_lt. intros H. apply Qle_bool_iff in H. congruence.
Qed.

Lemma ilog2_mono (x y : Q) : 0 < x -> x <= y -> (ilog2 x <= ilog2 y)%Z.
Proof.
  intros Hx Hxy.
  assert (Hy : 0 < y) by (eapply Qlt_le_trans; eassumption).
  destruct (ilog2_spec x Hx) as [Hx1 _].
  destruct (ilog2_spec y Hy) as [_ Hy2].
  destruct (Z_le_gt_dec (ilog2 x) (ilog2 y)) as [H|H]; [assumption|].
  exfalso. apply (Qlt_irrefl y).
  eapply Qlt_le_trans; [exact Hy2|].
  eapply Qle_trans; [|exact Hxy].
  eapply Qle_trans; [|exact Hx1].
  apply pow2_le. lia.
Qed.

Lemma rne_bounds (y : Q) : (Qfloor y <= rne y <= Qfloor y + 1)%Z.
Proof.
  unfold rne. destruct (y - inject_Z (Qfloor y) ?= 1 # 2);
    [destruct (Z.even (Qfloor y))|..]; lia.
Qed.

Lemma rne_Z (n : Z) : rne (inject_Z n) = n.
Proof.
  unfold rne. rewrite Qfloor_Z.
  assert (H : inject_Z n - inject_Z n < 1 # 2).
  { setoid_replace (inject_Z n - inject_Z n) with 0 by ring. reflexivity. }
  destruct (Qcompare_spec (inject_Z n - inject_Z n) (1 # 2)) as [E|E|E].
  - rewrite E in H. now apply Qlt_irrefl in H.
  - reflexivity.
  - exfalso. apply (Qlt_irrefl (1 # 2)). eapply Qlt_trans; eassumption.
Qed.

Lemma rne_mono (x y : Q) : x <= y -> (rne x <= rne y)%Z.
Proof.
  intros Hxy. pose proof (Qfloor_resp_le x y Hxy) as Hf.
  pose proof (rne_bounds x) as Bx. pose proof (rne_bounds y) as By.
  destruct (Z.eq_dec (Qfloor x) (Qfloor y)) as [E|N]; [|lia].
  unfold rne. rewrite <- E.
  assert (Hr : x - inject_Z (Qfloor x) <= y - inject_Z (Qfloor x)).
  { apply Qplus_le_compat; [assumption|apply Qle_refl]. }
  destruct (Qcompare_spec (x - inject_Z (Qfloor x)) (1 # 2)) as [Hx|Hx|Hx];
    destruct (Qcompare_spec (y - inject_Z (Qfloor x)) (1 # 2)) as [Hy|Hy|Hy];
    cbv beta iota zeta;
    try (destruct (Z.even (Qfloor x))); try lia; exfalso; lra.
Qed.

Lemma rne_le_Z (y : Q) (n : Z) : y <= inject_Z n -> (rne y <= n)%Z.
Proof. intros H. rewrite <- (rne_Z n). now apply rne_mono. Qed.

Lemma rne_ge_Z (y : Q) (n : Z) : inject_Z n <= y -> (n <= rne y)%Z.
Proof. intros H. rewrite <- (rne_Z n). now apply rne_mono. Qed.

Lemma ulp_exp_mono (x y : Q) : 0 < x -> x <= y -> (ulp_exp x <= ulp_exp y)%Z.
Proof.
  intros Hx Hxy. unfold ulp_exp. pose proof (ilog2_mono x y Hx Hxy). lia.
Qed.

Lemma div_pow2_le (x y : Q) (k : Z) : x <= y -> x / pow2 k <= y / pow2 k.
Proof.
  intros H. unfold Qdiv. apply Qmult_le_compat_r; [assumption|].
  apply Qlt_le_weak, Qinv_lt_0_compat, pow2_pos.
Qed.

Lemma pow2_div (a b : Z) :
  (b <= a)%Z -> pow2 a / pow2 b == inject_Z (2 ^ (a - b)).
Proof.
  intros H. rewrite <- pow2_minus. apply pow2_Z. lia.
Qed.

Lemma scale_back (a b : Z) :
  (b <= a)%Z -> inject_Z (2 ^ (a - b)) * pow2 b == pow2 a.
Proof.
  intros H. rewrite <- pow2_Z by lia. rewrite <- pow2_plus.
  now replace (a - b + b)%Z with a by lia.
Qed.

Lemma round_pos_le_pow2 (x : Q) (e : Z) :
  0 < x -> x <= pow2 e -> (ulp_exp x <= e)%Z -> round_pos x <= pow2 e.
Proof.
  intros Hx Hle Hk. unfold round_pos.
  rewrite <- (scale_back e (ulp_exp x) Hk).
  apply Qmult_le_compat_r; [|apply Qlt_le_weak, pow2_pos].
  rewrite <- Zle_Qle. apply rne_le_Z.
  rewrite <- pow2_div by assumption. now apply div_pow2_le.
Qed.

Lemma round_pos_ge_pow2 (x : Q) (e : Z) :
  pow2 e <= x -> (ulp_exp x <= e)%Z -> pow2 e <= round_pos x.
Proof.
  intros Hle Hk. unfold round_pos.
  rewrite <- (scale_back e (ulp_exp x) Hk).
  apply Qmult_le_compat_r; [|apply Qlt_le_weak, pow2_pos].
  rewrite <- Zle_Qle. apply rne_ge_Z.
  rewrite <- pow2_div by assumption. now apply div_pow2_le.
Qed.

Lemma round_pos_nonneg (x : Q) : 0 <= x -> 0 <= round_pos x.
Proof.
  intros Hx. unfold round_pos.
  apply Qmult_le_0_compat; [|apply Qlt_le_weak, pow2_pos].
  change 0 with (inject_Z 0). rewrite <- Zle_Qle. apply rne_ge_Z.
  change (inject_Z 0) with 0. unfold Qdiv.
  apply Qmult_le_0_compat; [assumption|].
  apply Qlt_le_weak, Qinv_lt_0_compat, pow2_pos.
Qed.

Lemma round_pos_mono (x y : Q) :
  0 < x -> x <= y -> round_pos x <= round_pos y.
Proof.
  intros Hx Hxy.
  assert (Hy : 0 < y) by (eapply Qlt_le_trans; eassumption).
  pose proof (ulp_exp_mono x y Hx Hxy) as Hk.
  destruct (Z.eq_dec (ulp_exp x) (ulp_exp y)) as [E|N].
  - unfold round_pos. rewrite E.
    apply Qmult_le_compat_r; [|apply Qlt_le_weak, pow2_pos].
    rewrite <- Zle_Qle. apply rne_mono. now apply div_pow2_le.
  - destruct (ilog2_spec x Hx) as [_ Hx2].
    destruct (ilog2_spec y Hy) as [Hy1 _].
    assert (Ey : ulp_exp y = (ilog2 y - 52)%Z) by (unfold ulp_exp in *; lia).
    assert (Hex : (ilog2 x + 1 <= ilog2 y)%Z) by (unfold ulp_exp in *; lia).
    apply Qle_trans with (pow2 (ilog2 y)).
    + apply round_pos_le_pow2; [assumption| |unfold ulp_exp in *; lia].
      apply Qlt_le_weak. eapply Qlt_le_trans; [exact Hx2|]. now apply pow2_le.
    + apply round_pos_ge_pow2; [assumption|lia].
Qed.

Lemma round_mono (x y : Q) : x <= y -> round x <= round y.
Proof.
  intros Hxy. unfold round.
  destruct (Qcompare_spec x 0) as [Hx|Hx|Hx];
    destruct (Qcompare_spec y 0) as [Hy|Hy|Hy]; try lra.
  - apply round_pos_nonneg. lra.
  - assert (H : 0 <= round_pos (- x)) by (apply round_pos_nonneg; lra). lra.
  - assert (H : round_pos (- y) <= round_pos (- x))
      by (apply round_pos_mono; lra). lra.
  - assert (H : 0 <= round_pos (- x)) by (apply round_pos_nonneg; lra).
    assert (H' : 0 <= round_pos y) by (apply round_pos_nonneg; lra). lra.
  - now apply round_pos_mono.
Qed.

Lemma sub_mono (a b c : Q) : a <= b -> sub a c <= sub b c.
Proof. intros H. apply round_mono. lra. Qed.

Lemma round_600 : round (inject_Z 600) == inject_Z 600.
Proof. vm_compute. reflexivity. Qed.

End Float64Facts.

(** ** Clock comparisons *)

Lemma Qgtb_spec (x y : Q) : Qgtb x y = true <-> (y < x)%Q.
Proof.
  unfold Qgtb. rewrite negb_true_iff, <- not_true_iff_false, Qle_bool_iff.
  split; [apply Qnot_le_lt|apply Qlt_not_le].
Qed.

Lemma is_expired_spec (now : Q) (d : PairingRecord) :
  is_expired now d = true <->
  (inject_Z (expires_in d) < Float64.sub now (created d))%Q.
Proof. apply Qgtb_spec. Qed.

(** ** GetStatus *)

(** C1, amended: for a stored record, a status call answers [expired]
    exactly when the age of the record, the float difference of the clock
    reading and [created], exceeds its [expires_in], whatever the stored
    status; otherwise it answers the stored status unchanged; and it never
    writes to the store. *)
Theorem device_status_found (reqs : list Request) (dc : string) (now : Q)
  (d : PairingRecord) :
  Dict.get dc (store_after upper reqs) = Some d ->
  let s := store_after upper reqs in
  snd (device_status (Some dc) now s) = s /\
  (fst (device_status (Some dc) now s) = ok (StatusBody expired) <->
   (inject_Z (expires_in d) < Float64.sub now (created d))%Q) /\
  (~ (inject_Z (expires_in d) < Float64.sub now (created d))%Q ->
   fst (device_status (Some dc) now s) = ok (StatusBody (status d))).
Proof.
  intros Hget s. subst s. unfold device_status. rewrite Hget.
  assert (Hok : record_ok d).
  { destruct (store_after_ok reqs) as [_ Hrec].
    apply (Hrec dc). now apply get_in. }
  rewrite <- is_expired_spec.
  destruct (is_expired now d) eqn:E; cbn [fst snd].
  - repeat split; auto. intros Hn. now contradiction Hn.
  - repeat split; auto.
    + destruct Hok as [[Hs|Hs] _]; rewrite Hs; intros [=].
    + discriminate.
Qed.

(** C7: a status call for a device code that has no record, or without a
    device code, answers [pending] with HTTP 200, and leaves the store as it
    is. *)
Theorem device_status_unknown (s : Store) (dc : string) (now : Q) :
  Dict.get dc s = None ->
  device_status (Some dc) now s = ((200%Z, StatusBody pending), s) /\
  device_status None now s = ((200%Z, StatusBody pending), s).
Proof.
  intros Hget. unfold device_status. rewrite Hget. split; reflexivity.
Qed.

(** ** RedeemToken *)

Lemma is_authorized_spec (arg : option string) (s : Store) :
  is_authorized arg s = true <-> authorized_record arg s.
Proof.
  unfold is_authorized, authorized_record, Dict.mem. split.
  - destruct arg as [dc|]; [|discriminate].
    destruct (Dict.get dc s) as [d|] eqn:G; [|discriminate].
    destruct (status d) eqn:S; try discriminate.
    intros _. now exists dc, d.
  - intros (dc & d & -> & -> & ->). reflexivity.
Qed.

Lemma holds_authorized_spec (s : Store) (arg : option string) :
  Dict.wf s -> (holds_authorized arg s <-> is_authorized arg s = true).
Proof.
  intros Hwf. rewrite is_authorized_spec.
  unfold holds_authorized, authorized_record. split.
  - intros (dc & d & E & Hin & Hst). exists dc, d.
    repeat split; try assumption. now apply in_get.
  - intros (dc & d & E & Hget & Hst). exists dc, d.
    repeat split; try assumption. now apply get_in.
Qed.

(** C2: on every store the server can reach, a token request succeeds if
    and only if the store holds a record for its device code whose status
    is [authorized].  It then answers HTTP 200 with [expires_in = 3600], an
    access token ["access_"] and a refresh token ["refresh_"], each
    followed by the 32 hex digits of a UUID drawn for this request: two
    requests get the same tokens only when they drew the same UUIDs.  In
    every other case, a pending record, one past its time to live that was
    never approved, no record or no device code, it answers HTTP 400 with
    the error [not_authorized]. *)
Theorem device_token_iff (reqs : list Request) (arg : option string)
  (r1 r2 : N) :
  let s := store_after upper reqs in
  (holds_authorized arg s <->
   exists acc ref,
     fst (device_token arg r1 r2 s) = (200%Z, TokenBody acc ref 3600) /\
     is_token "access_" acc = true /\ is_token "refresh_" ref = true) /\
  (~ holds_authorized arg s <->
   fst (device_token arg r1 r2 s) = (400%Z, ErrorBody "not_authorized")) /\
  (forall r1' r2' acc ref e,
     fst (device_token arg r1 r2 s) = (200%Z, TokenBody acc ref e) ->
     fst (device_token arg r1' r2' s) = (200%Z, TokenBody acc ref e) ->
     Uuid.uuid4 r1' = Uuid.uuid4 r1 /\ Uuid.uuid4 r2' = Uuid.uuid4 r2).
Proof.
  intros s.
  destruct (store_after_ok reqs) as [Hwf _]. fold s in Hwf.
  rewrite (holds_authorized_spec s arg Hwf). unfold device_token.
  destruct (is_authorized arg s); cbn [fst]; unfold ok.
  - split; [|split].
    + split; [intros _|reflexivity].
      exists ("access_" ++ Uuid.hex (Uuid.uuid4 r1)),
             ("refresh_" ++ Uuid.hex (Uuid.uuid4 r2)).
      split; [reflexivity|]. split; apply is_token_hex.
    + split; [intros H; now contradiction H|discriminate].
    + intros r1' r2' acc ref e H H'. rewrite <- H in H'. clear H.
      assert (Ha : "access_" ++ Uuid.hex (Uuid.uuid4 r1')
                   = "access_" ++ Uuid.hex (Uuid.uuid4 r1)) by congruence.
      assert (Hr : "refresh_" ++ Uuid.hex (Uuid.uuid4 r2')
                   = "refresh_" ++ Uuid.hex (Uuid.uuid4 r2)) by congruence.
      apply append_inj_l in Ha, Hr.
      split; now apply uuid4_hex_inj.
  - split; [|split].
    + split; [discriminate|]. intros (acc & ref & H & _). discriminate H.
    + split; [reflexivity|]. intros _. discriminate.
    + intros r1' r2' acc ref e H. discriminate H.
Qed.

(** C3: a token request never writes to the store; in particular the status
    of an authorized record stays [authorized], and a second token request
    for the same device code right after a successful one succeeds too. *)
Theorem device_token_frame (s : Store) (dc : string) (d : PairingRecord)
  (r1 r2 r3 r4 : N) :
  Dict.get dc s = Some d ->
  status d = authorized ->
  let first := device_token (Some dc) r1 r2 s in
  let second := device_token (Some dc) r3 r4 (snd first) in
  fst first = (200%Z, token_body r1 r2) /\ snd first = s /\
  fst second = (200%Z, token_body r3 r4) /\ snd second = s /\
  forall arg r r', snd (device_token arg r r' s) = s.
Proof.
  intros Hget Hst first second.
  assert (Hauth : is_authorized (Some dc) s = true).
  { apply is_authorized_spec. now exists dc, d. }
  assert (Hframe : forall arg r r', snd (device_token arg r r' s) = s).
  { intros arg r r'. unfold device_token.
    destruct (is_authorized arg s); reflexivity. }
  subst first second. rewrite Hframe.
  unfold device_token. rewrite Hauth. cbn [fst snd]. auto.
Qed.

(** ** Approve *)

Lemma approve_found (arg : option string) (s : Store) (k : string) :
  find_user_code (submitted upper arg) s = Some k ->
  approve upper arg s =
  (ok (AuthorizedPage (submitted upper arg)),
   Dict.adjust k (set_status authorized) s).
Proof. unfold approve, submitted. now intros ->. Qed.

Lemma approve_not_found (arg : option string) (s : Store) :
  find_user_code (submitted upper arg) s = None ->
  approve upper arg s = (ok (NotFoundPage (submitted upper arg)), s).
Proof. unfold approve, submitted. now intros ->. Qed.



(** C9: when no stored user code equals the upper-cased submitted code,
    [approve] answers with the "not found" page and returns the store as
    it was. *)
Theorem approve_unknown (s : Store) (arg : option string) :
  (forall k d, In (k, d) s -> user_code d <> submitted upper arg) ->
  approve upper arg s = ((200%Z, NotFoundPage (submitted upper arg)), s).
Proof.
  intros Hno. apply approve_not_found. now apply find_user_code_none.
Qed.

(** C10: when two records of a reachable store carry the submitted user
    code, [approve] sets the status of the first of them, in insertion
    order, to [authorized] and leaves every other record, the later match
    included, exactly as it was. *)
Theorem approve_first_match_only (reqs : list Request) (arg : option string)
  (l1 l2 l3 : Store) (k1 k2 : string) (d1 d2 : PairingRecord) :
  store_after upper reqs = (l1 ++ (k1, d1) :: l2 ++ (k2, d2) :: l3)%list ->
  (forall k d, In (k, d) l1 -> user_code d <> submitted upper arg) ->
  user_code d1 = submitted upper arg ->
  user_code d2 = submitted upper arg ->
  snd (approve upper arg (store_after upper reqs))
  = (l1 ++ (k1, set_status authorized d1) :: l2 ++ (k2, d2) :: l3)%list.
Proof.
  intros Hs Hl1 Hd1 _.
  destruct (store_after_ok reqs) as [Hwf _].
  rewrite Hs in *.
  rewrite (approve_found arg _ k1);
    [|now apply find_user_code_split].
  cbn [snd]. apply adjust_split.
  unfold Dict.wf, Dict.keys in Hwf. rewrite map_app in Hwf.
  apply NoDup_remove_2 in Hwf. intros Hk. apply Hwf.
  apply in_or_app. now left.
Qed.

(** ** Approve, then GetStatus *)

Lemma is_expired_set_status (now : Q) (st : Status) (d : PairingRecord) :
  is_expired now (set_status st d) = is_expired now d.
Proof. reflexivity. Qed.

(** C5, amended: after a successful approve, a status call for the device
    code of the first record, in insertion order, carrying the submitted
    user code answers [authorized] as long as the age of that record does
    not exceed its [expires_in], and [expired] once it does. *)
Theorem approve_then_status (reqs : list Request) (arg : option string)
  (now : Q) (l1 l2 : Store) (k : string) (d : PairingRecord) :
  store_after upper reqs = (l1 ++ (k, d) :: l2)%list ->
  (forall k' d', In (k', d') l1 -> user_code d' <> submitted upper arg) ->
  user_code d = submitted upper arg ->
  let s := store_after upper reqs in
  fst (approve upper arg s) = ok (AuthorizedPage (submitted upper arg)) /\
  fst (device_status (Some k) now (snd (approve upper arg s)))
  = ok (StatusBody (if is_expired now d then expired else authorized)).
Proof.
  intros Hs Hl1 Hd s.
  destruct (store_after_ok reqs) as [Hwf _]. fold s in Hs, Hwf.
  assert (Hfind : find_user_code (submitted upper arg) s = Some k).
  { rewrite Hs. now apply find_user_code_split. }
  assert (Hget : Dict.get k s = Some d).
  { apply in_get; [assumption|]. rewrite Hs. apply in_or_app. right. now left. }
  rewrite (approve_found _ _ _ Hfind). cbn [fst snd]. split; [reflexivity|].
  unfold device_status. rewrite get_adjust_same, Hget. cbn [option_map].
  rewrite is_expired_set_status.
  destruct (is_expired now d); reflexivity.
Qed.

(** ** StartPairing *)

(** C6, amended: [device_start] always answers HTTP 200 with the device
    code, a user code of the form [SWIFT-XXXX], [XXXX] four upper-case
    alphanumeric characters, [expires_in = 600] and [interval = 5].
    Afterwards the device code maps to a record stored as [pending] and
    created at the time of the call, and every other device code maps to
    what it mapped to before.  When the device code is new to the store,
    the store afterwards is the old one followed by that one record; when
    it is already a key, the new record takes the place of the old one and
    the store keeps its keys and its size. *)
Theorem device_start_spec (s : Store) (r1 r2 : N) (now : Q) :
  let device_code := Uuid.str (Uuid.uuid4 r1) in
  let data := new_record r2 now in
  let s' := snd (device_start r1 r2 now s) in
  fst (device_start r1 r2 now s) =
    (200%Z, StartBody device_code (user_code data)
              "http://106.54.188.236:8080/console" 600 5) /\
  is_user_code (user_code data) = true /\
  status data = pending /\
  created data = now /\
  Dict.get device_code s' = Some data /\
  (forall k, k <> device_code -> Dict.get k s' = Dict.get k s) /\
  (Dict.get device_code s = None ->
   s' = (s ++ [(device_code, data)])%list /\
   List.length s' = S (List.length s)) /\
  (Dict.get device_code s <> None ->
   Dict.keys s' = Dict.keys s /\ List.length s' = List.length s).
Proof.
  intros device_code data s'.
  assert (Hs' : s' = Dict.set device_code data s) by reflexivity.
  split; [reflexivity|]. split; [apply make_user_code_form|].
  do 2 (split; [reflexivity|]).
  split; [rewrite Hs'; apply get_set_same|].
  split; [|split].
  - intros k Hk. rewrite Hs'. apply get_set_other. congruence.
  - intros Hfresh. rewrite Hs', (set_fresh _ _ _ Hfresh).
    split; [reflexivity|].
    rewrite length_app. cbn [List.length]. lia.
  - intros Hold. rewrite Hs'.
    pose proof (set_present device_code data s Hold) as Hk.
    split; [exact Hk|].
    rewrite <- (length_map fst (Dict.set device_code data s)),
      <- (length_map fst s).
    exact (f_equal (@List.length _) Hk).
Qed.

(** ** Uniqueness of user codes *)

Lemma stored_user_codes_adjust (k : string) (st : Status) (s : Store) :
  stored_user_codes (Dict.adjust k (set_status st) s) = stored_user_codes s.
Proof.
  unfold stored_user_codes, Dict.values.
  induction s as [|[k' d] s IH]; cbn [Dict.adjust map]; [reflexivity|].
  destruct (String.eqb k' k); cbn [map snd]; [reflexivity|].
  f_equal. exact IH.
Qed.

Lemma stored_user_codes_set_in (k : string) (d : PairingRecord) (s : Store)
  (c : string) :
  In c (stored_user_codes (Dict.set k d s)) ->
  c = user_code d \/ In c (stored_user_codes s).
Proof.
  unfold stored_user_codes, Dict.values. rewrite !map_map.
  intros Hin. apply in_map_iff in Hin. destruct Hin as ([k' d'] & <- & Hin).
  apply in_set in Hin. destruct Hin as [[= -> ->]|Hin]; [now left|].
  right. apply in_map_iff. now exists (k', d').
Qed.

(** Storing a record whose user code is new keeps the user codes
    distinct, whether the key is new or overwritten. *)
Lemma stored_user_codes_set (k : string) (d : PairingRecord) (s : Store)
  (rest : list string) :
  NoDup (stored_user_codes s ++ user_code d :: rest) ->
  NoDup (stored_user_codes (Dict.set k d s) ++ rest).
Proof.
  induction s as [|[k' d'] s IH]; intros Hnd.
  - exact Hnd.
  - change (NoDup (user_code d' ::
      (stored_user_codes s ++ user_code d :: rest)))
      in Hnd.
    inversion Hnd as [|? ? Hnotin Hnd']; subst.
    cbn [Dict.set]. destruct (String.eqb k' k).
    + change (NoDup (user_code d :: (stored_user_codes s ++ rest))).
      constructor; [now apply NoDup_remove_2 in Hnd'|
                    now apply NoDup_remove_1 in Hnd'].
    + change (NoDup (user_code d'
                       :: (stored_user_codes (Dict.set k d s) ++ rest))).
      constructor; [|now apply IH].
      intros Hin. apply Hnotin. apply in_app_or in Hin. apply in_or_app.
      destruct Hin as [Hin|Hin]; [|right; now right].
      apply stored_user_codes_set_in in Hin.
      destruct Hin as [->|Hin]; [right; now left|now left].
Qed.

Lemma run_user_codes (reqs : list Request) (s : Store) :
  NoDup (stored_user_codes s ++ issued_user_codes reqs) ->
  NoDup (stored_user_codes (run upper reqs s)).
Proof.
  revert s. induction reqs as [|req reqs IH]; intros s Hnd.
  - cbn [issued_user_codes] in Hnd. now rewrite app_nil_r in Hnd.
  - cbn [run]. apply IH.
    destruct req as [r1 r2 now|code|dc now|dc r1 r2];
      cbn [issued_user_codes handle] in *.
    + unfold device_start. cbn [snd].
      exact (stored_user_codes_set _ (new_record r2 now) _ _ Hnd).
    + unfold approve. destruct (find_user_code _ s); cbn [snd];
        [now rewrite stored_user_codes_adjust|assumption].
    + unfold device_status. destruct dc as [dc|]; [|assumption].
      destruct (Dict.get dc s) as [d|]; [|assumption].
      destruct (is_expired now d); assumption.
    + unfold device_token. destruct (is_authorized dc s); assumption.
Qed.

Lemma issued_user_codes_draws (reqs : list Request) :
  issued_user_codes reqs
  = map (fun r => make_user_code (Uuid.uuid4 r)) (user_code_draws reqs).
Proof.
  induction reqs as [|[r1 r2 now|code|dc now|dc r1 r2] reqs IH];
    cbn [issued_user_codes user_code_draws map]; congruence.
Qed.

Lemma issued_user_codes_nodup (reqs : list Request) :
  NoDup (map code_bits (user_code_draws reqs)) ->
  NoDup (issued_user_codes reqs).
Proof.
  rewrite issued_user_codes_draws.
  induction (user_code_draws reqs) as [|r l IH]; cbn [map]; intros Hnd.
  - constructor.
  - inversion Hnd as [|? ? Hnotin Hnd']; subst. constructor; [|auto].
    intros Hin. apply Hnotin. apply in_map_iff in Hin.
    destruct Hin as (r' & Heq & Hr'). apply make_user_code_collide in Heq.
    rewrite <- Heq. now apply in_map.
Qed.

(** C8, amended: at every reachable state the device codes of the stored
    records are pairwise distinct, and so are their user codes as long as
    the start requests handled so far drew pairwise distinct values for
    the first sixteen random bits of their user-code UUIDs.  Nothing in the
    server checks a new user code against the stored ones. *)
Theorem user_codes_unique (reqs : list Request) :
  NoDup (map code_bits (user_code_draws reqs)) ->
  NoDup (Dict.keys (store_after upper reqs)) /\
  NoDup (stored_user_codes (store_after upper reqs)).
Proof.
  intros Hnd. split.
  - apply (store_after_ok reqs).
  - apply run_user_codes. now apply issued_user_codes_nodup.
Qed.

(** ** Expiry is only looked at by the status call *)

(** * Further properties of the handlers *)

(** ** Records are only ever added, and only by start requests *)

Lemma keys_set_cases {V : Type} (k : string) (v : V) (d : Dict.t V) :
  Dict.keys (Dict.set k v d) = Dict.keys d \/
  Dict.keys (Dict.set k v d) = (Dict.keys d ++ [k])%list.
Proof.
  destruct (Dict.get k d) as [v0|] eqn:G.
  - left. apply set_present. congruence.
  - right. rewrite (set_fresh _ _ _ G). unfold Dict.keys.
    now rewrite map_app.
Qed.

Lemma keys_handle_not_start (req : Request) (s : Store) :
  (forall r1 r2 now, req <> Start r1 r2 now) ->
  Dict.keys (snd (handle upper req s)) = Dict.keys s.
Proof.
  intros Hns. destruct req as [r1 r2 now|code|dc now|dc r1 r2]; cbn [handle].
  - now contradiction (Hns r1 r2 now).
  - unfold approve. destruct (find_user_code _ s); cbn [snd];
      [apply keys_adjust|reflexivity].
  - unfold device_status. destruct dc as [dc|]; [|reflexivity].
    destruct (Dict.get dc s) as [d|]; [|reflexivity].
    destruct (is_expired now d); reflexivity.
  - unfold device_token. destruct (is_authorized dc s); reflexivity.
Qed.

(** X1: no handler deletes or reorders records.  The device codes stored
    before a run are an initial segment of the device codes stored after
    it, and the run adds at most one record per start request. *)
Theorem records_only_added (reqs : list Request) (s : Store) :
  exists added,
    Dict.keys (run upper reqs s) = (Dict.keys s ++ added)%list /\
    (List.length added <= count_starts reqs)%nat /\
    incl added (issued_device_codes reqs).
Proof.
  revert s. induction reqs as [|req reqs IH]; intros s.
  - exists []. cbn [run]. rewrite app_nil_r. repeat split; auto.
    intros x [].
  - cbn [run]. destruct (IH (snd (handle upper req s))) as
      (l & Hl & Hlen & Hincl).
    destruct req as [r1 r2 now|code|dc now|dc r1 r2].
    + cbn [count_starts issued_device_codes].
      cbn [handle] in *. unfold device_start in *. cbn [snd] in *.
      destruct (keys_set_cases (Uuid.str (Uuid.uuid4 r1))
                  {| user_code := make_user_code (Uuid.uuid4 r2);
                     status := pending; created := now; expires_in := 600 |}
                  s) as [E|E]; rewrite E in Hl.
      * exists l. repeat split; [assumption|lia|].
        intros x Hx. right. now apply Hincl.
      * exists (Uuid.str (Uuid.uuid4 r1) :: l).
        rewrite Hl, <- app_assoc. repeat split; [cbn [List.length]; lia|].
        intros x [<-|Hx]; [now left|right; now apply Hincl].
    + rewrite keys_handle_not_start in Hl by discriminate.
      exists l. repeat split; assumption.
    + rewrite keys_handle_not_start in Hl by discriminate.
      exists l. repeat split; assumption.
    + rewrite keys_handle_not_start in Hl by discriminate.
      exists l. repeat split; assumption.
Qed.

(** ** What a run can change in a record *)

Lemma handle_record_stable (req : Request) (s : Store) (k : string)
  (d : PairingRecord) :
  Dict.get k s = Some d ->
  ~ In k (issued_device_codes [req]) ->
  exists d',
    Dict.get k (snd (handle upper req s)) = Some d' /\
    user_code d' = user_code d /\ created d' = created d /\
    expires_in d' = expires_in d /\
    (status d' = status d \/ status d' = authorized).
Proof.
  intros Hget Hk.
  destruct req as [r1 r2 now|code|dc now|dc r1 r2]; cbn [handle].
  - exists d. unfold device_start. cbn [snd].
    rewrite get_set_other; [auto 6|].
    intros E. apply Hk. cbn [issued_device_codes]. now left.
  - unfold approve. destruct (find_user_code _ s) as [k0|]; cbn [snd];
      [|exists d; auto 6].
    destruct (string_dec k0 k) as [->|Hne].
    + exists (set_status authorized d).
      rewrite get_adjust_same, Hget. cbn [option_map]. auto 6.
    + exists d. rewrite get_adjust_other by assumption. auto 6.
  - exists d. unfold device_status. destruct dc as [dc|]; [|auto 6].
    destruct (Dict.get dc s) as [d0|]; [|auto 6].
    destruct (is_expired now d0); auto 6.
  - exists d. unfold device_token. destruct (is_authorized dc s); auto 6.
Qed.

Lemma run_record_stable (reqs : list Request) (s : Store) (k : string)
  (d : PairingRecord) :
  Dict.get k s = Some d ->
  ~ In k (issued_device_codes reqs) ->
  exists d',
    Dict.get k (run upper reqs s) = Some d' /\
    user_code d' = user_code d /\ created d' = created d /\
    expires_in d' = expires_in d /\
    (status d' = status d \/ status d' = authorized).
Proof.
  revert s d. induction reqs as [|req reqs IH]; intros s d Hget Hk.
  - exists d. cbn [run]. auto 6.
  - cbn [run].
    assert (Hk1 : ~ In k (issued_device_codes [req])).
    { intros Hin. apply Hk. destruct req; cbn in Hin |- *; tauto. }
    assert (Hk2 : ~ In k (issued_device_codes reqs)).
    { intros Hin. apply Hk. destruct req; cbn [issued_device_codes];
        [now right|assumption..]. }
    destruct (handle_record_stable req s k d Hget Hk1)
      as (d1 & Hget1 & Hu1 & Hc1 & He1 & Hs1).
    destruct (IH _ d1 Hget1 Hk2) as (d' & Hget' & Hu & Hc & He & Hs).
    exists d'. split; [assumption|].
    repeat split; try congruence.
    destruct Hs as [Hs|Hs]; [|now right].
    destruct Hs1 as [Hs1|Hs1]; [left|right]; congruence.
Qed.

(** X2: as long as no later start request draws the same device code, a
    stored record keeps its user code, its creation time and its
    [expires_in] for ever, and its status either stays what it was or
    becomes [authorized]; an authorized record stays authorized. *)
Theorem record_fields_stable (reqs : list Request) (s : Store) (k : string)
  (d : PairingRecord) :
  Dict.get k s = Some d ->
  ~ In k (issued_device_codes reqs) ->
  exists d',
    Dict.get k (run upper reqs s) = Some d' /\
    user_code d' = user_code d /\ created d' = created d /\
    expires_in d' = expires_in d /\
    (status d' = status d \/ status d' = authorized) /\
    (status d = authorized -> status d' = authorized).
Proof.
  intros Hget Hk.
  destruct (run_record_stable reqs s k d Hget Hk)
    as (d' & Hget' & Hu & Hc & He & Hs).
  exists d'. repeat split; try assumption.
  intros Ha. destruct Hs as [Hs|Hs]; congruence.
Qed.

(** ** Expiry over time *)

Lemma is_expired_later (now now' : Q) (d : PairingRecord) :
  (now <= now')%Q -> is_expired now d = true -> is_expired now' d = true.
Proof.
  rewrite !is_expired_spec. intros Hle Hexp.
  apply (Qlt_le_trans _ _ _ Hexp). now apply sub_mono.
Qed.

Lemma is_expired_same_fields (now : Q) (d d' : PairingRecord) :
  created d' = created d -> expires_in d' = expires_in d ->
  is_expired now d' = is_expired now d.
Proof. unfold is_expired. now intros -> ->. Qed.

(** X3: expiry is final.  Once a status call for a device code answers
    [expired] on a reachable store, every status call made at the same or
    a later clock reading, after any further requests that do not draw the
    same device code again, answers [expired] too; approving the code in
    between does not bring the pairing back. *)
Theorem expired_stays_expired (reqs0 reqs : list Request) (k : string)
  (now now' : Q) :
  fst (device_status (Some k) now (store_after upper reqs0))
    = ok (StatusBody expired) ->
  ~ In k (issued_device_codes reqs) ->
  (now <= now')%Q ->
  fst (device_status (Some k) now' (run upper reqs (store_after upper reqs0)))
    = ok (StatusBody expired).
Proof.
  intros Hst Hk Hle. unfold device_status in Hst.
  destruct (Dict.get k (store_after upper reqs0)) as [d|] eqn:Hget;
    [|discriminate Hst].
  assert (Hexp : is_expired now d = true).
  { destruct (is_expired now d); [reflexivity|]. cbn [fst] in Hst.
    destruct (store_after_ok reqs0) as [_ Hrec].
    destruct (Hrec k d (get_in _ _ _ Hget)) as [[Hs|Hs] _];
      rewrite Hs in Hst; discriminate Hst. }
  destruct (run_record_stable reqs _ k d Hget Hk)
    as (d' & Hget' & _ & Hc & He & _).
  unfold device_status. rewrite Hget'.
  rewrite (is_expired_same_fields now' d d' Hc He).
  now rewrite (is_expired_later now now' d Hle Hexp).
Qed.

(** ** Authorization comes from approve only *)

Lemma handle_wf (req : Request) (s : Store) :
  Dict.wf s -> Dict.wf (snd (handle upper req s)).
Proof.
  intros Hwf. destruct req as [r1 r2 now|arg|dc now|dc r1 r2]; cbn [handle].
  - unfold device_start. cbn [snd]. now apply wf_set.
  - unfold approve. destruct (find_user_code _ s); cbn [snd];
      [now apply wf_adjust|assumption].
  - unfold device_status. destruct dc as [dc|]; [|assumption].
    destruct (Dict.get dc s) as [d|]; [|assumption].
    destruct (is_expired now d); assumption.
  - unfold device_token. destruct (is_authorized dc s); assumption.
Qed.

Lemma run_authorized_approved (reqs : list Request) (s : Store)
  (seen : list string) :
  Dict.wf s ->
  (forall k d, In (k, d) s -> status d = authorized ->
               In (user_code d) seen) ->
  forall k d, In (k, d) (run upper reqs s) -> status d = authorized ->
              In (user_code d) (seen ++ approved_codes upper reqs)%list.
Proof.
  revert s seen. induction reqs as [|req reqs IH]; intros s seen Hwf Hs.
  - cbn [run approved_codes]. rewrite app_nil_r. exact Hs.
  - cbn [run]. pose proof (handle_wf req s Hwf) as Hwf'.
    destruct req as [r1 r2 now|arg|dc now|dc r1 r2];
      cbn [approved_codes]; cbn [handle] in Hwf' |- *.
    + apply IH; [assumption|]. unfold device_start. cbn [snd].
      intros k d Hin Ha.
      apply in_set in Hin. destruct Hin as [[= -> ->]|Hin];
        [discriminate Ha|eauto].
    + replace (seen ++ submitted upper arg :: approved_codes upper reqs)%list
        with ((seen ++ [submitted upper arg]) ++ approved_codes upper reqs)%list
        by (rewrite <- app_assoc; reflexivity).
      apply IH; [assumption|]. intros k d Hin Ha. apply in_or_app.
      destruct (find_user_code (submitted upper arg) s) as [k0|] eqn:F.
      * rewrite (approve_found _ _ _ F) in Hin. cbn [snd] in Hin.
        apply in_adjust in Hin.
        destruct Hin as [Hin|(d0 & Hin & [= -> ->])]; [left; eauto|].
        right. left.
        destruct (find_user_code_some _ _ _ F) as (l1 & d1 & l2 & E & Hd & _).
        assert (Hin1 : In (k0, d1) s).
        { rewrite E. apply in_or_app. right. now left. }
        pose proof (in_get _ _ _ Hwf Hin) as G0.
        pose proof (in_get _ _ _ Hwf Hin1) as G1.
        rewrite G0 in G1. injection G1 as ->. now symmetry.
      * rewrite (approve_not_found _ _ F) in Hin. left. eauto.
    + apply IH; [assumption|]. unfold device_status.
      destruct dc as [dc|]; [|exact Hs].
      destruct (Dict.get dc s) as [d0|]; [|exact Hs].
      destruct (is_expired now d0); exact Hs.
    + apply IH; [assumption|]. unfold device_token.
      destruct (is_authorized dc s); exact Hs.
Qed.

(** X4: tokens are issued for approved user codes only.  When a token
    request succeeds on a reachable store, the user code of the record it
    names was submitted, up to letter case, by an approve request handled
    before. *)
Theorem token_needs_approval (reqs : list Request) (dc : string)
  (r1 r2 : N) :
  fst (device_token (Some dc) r1 r2 (store_after upper reqs))
    = (200%Z, token_body r1 r2) ->
  exists d,
    Dict.get dc (store_after upper reqs) = Some d /\
    In (user_code d) (approved_codes upper reqs) /\
    exists arg, In (Approve arg) reqs /\ submitted upper arg = user_code d.
Proof.
  intros Hok. unfold device_token in Hok.
  destruct (is_authorized (Some dc) (store_after upper reqs)) eqn:Ha;
    [|discriminate Hok].
  apply is_authorized_spec in Ha.
  destruct Ha as (dc' & d & [= <-] & Hget & Hst).
  exists d. split; [assumption|].
  assert (Hin : In (user_code d) (approved_codes upper reqs)).
  { apply (run_authorized_approved reqs [] [] (NoDup_nil _)
             (fun k d (H : In (k, d) []) => match H with end)
             dc d (get_in _ _ _ Hget) Hst). }
  split; [assumption|].
  clear - Hin. induction reqs as [|req reqs IH]; [destruct Hin|].
  destruct req as [r1 r2 now|arg|dc now|dc r1 r2];
    cbn [approved_codes] in Hin.
  - destruct (IH Hin) as (arg & H1 & H2). exists arg. split; [now right|auto].
  - destruct Hin as [E|Hin].
    + exists arg. split; [now left|assumption].
    + destruct (IH Hin) as (a & H1 & H2). exists a. split; [now right|auto].
  - destruct (IH Hin) as (arg & H1 & H2). exists arg. split; [now right|auto].
  - destruct (IH Hin) as (arg & H1 & H2). exists arg. split; [now right|auto].
Qed.

(** ** Approving twice, and approving what cannot match *)

Lemma find_user_code_adjust (code k : string) (st : Status) (s : Store) :
  find_user_code code (Dict.adjust k (set_status st) s)
  = find_user_code code s.
Proof.
  induction s as [|[k' d] s IH]; cbn [Dict.adjust]; [reflexivity|].
  destruct (String.eqb k' k); cbn [find_user_code set_status user_code];
    [reflexivity|].
  now rewrite IH.
Qed.

Lemma adjust_idem {V : Type} (k : string) (f : V -> V) (d : Dict.t V) :
  (forall v, f (f v) = f v) ->
  Dict.adjust k f (Dict.adjust k f d) = Dict.adjust k f d.
Proof.
  intros Hf. induction d as [|[k' v] d IH]; cbn [Dict.adjust]; [reflexivity|].
  destruct (String.eqb k' k) eqn:E; cbn [Dict.adjust]; rewrite E.
  - now rewrite Hf.
  - now rewrite IH.
Qed.

(** X5: approve is idempotent.  Submitting the same code a second time
    gives the same page and leaves the store as the first submission left
    it, on every store. *)
Theorem approve_idempotent (s : Store) (arg : option string) :
  approve upper arg (snd (approve upper arg s)) = approve upper arg s.
Proof.
  destruct (find_user_code (submitted upper arg) s) as [k|] eqn:F.
  - rewrite (approve_found _ _ _ F). cbn [snd].
    rewrite (approve_found arg _ k)
      by (now rewrite find_user_code_adjust).
    now rewrite adjust_idem.
  - rewrite (approve_not_found _ _ F). cbn [snd].
    now apply approve_not_found.
Qed.

(** X6: on a reachable store approve can only succeed for a text that,
    upper-cased, has the form of a generated user code.  Every other
    submission, the missing and the empty code included, gets the "not
    found" page and changes nothing. *)
Theorem approve_malformed (reqs : list Request) (arg : option string) :
  is_user_code (submitted upper arg) = false ->
  approve upper arg (store_after upper reqs)
  = ((200%Z, NotFoundPage (submitted upper arg)), store_after upper reqs).
Proof.
  intros Hbad. apply approve_not_found. apply find_user_code_none.
  intros k d Hin E.
  destruct (store_after_ok reqs) as [_ Hrec].
  destruct (Hrec k d Hin) as (_ & _ & Hform & _).
  rewrite E in Hform. congruence.
Qed.

(** ** A pairing from start to token *)

Lemma is_expired_new_record (r2 : N) (now now' : Q) :
  is_expired now' (new_record r2 now) = true <->
  (inject_Z 600 < Float64.sub now' now)%Q.
Proof. apply is_expired_spec. Qed.

(** A difference of at most 600 is a float difference of at most 600:
    600 is a float, and rounding keeps the order. *)
Lemma sub_le_600 (now now' : Q) :
  (now' - now <= inject_Z 600)%Q ->
  ~ (inject_Z 600 < Float64.sub now' now)%Q.
Proof.
  intros Hle. apply Qle_not_lt.
  rewrite <- round_600. now apply round_mono.
Qed.

Lemma get_after_start (s : Store) (r1 r2 : N) (now : Q) :
  Dict.get (Uuid.str (Uuid.uuid4 r1)) (snd (device_start r1 r2 now s))
  = Some (new_record r2 now).
Proof. unfold device_start. cbn [snd]. apply get_set_same. Qed.

(** X7: right after a start request, on every store, a status call for
    the new device code answers [expired] when the float difference of its
    clock reading and the start's exceeds 600, and [pending] otherwise, in
    particular whenever the exact difference is at most 600 seconds; a
    token request for it is refused with [not_authorized], even when the
    device code replaced an authorized record. *)
Theorem start_then_poll (s : Store) (r1 r2 r3 r4 : N) (now now' : Q) :
  let dc := Uuid.str (Uuid.uuid4 r1) in
  let s1 := snd (device_start r1 r2 now s) in
  (~ (inject_Z 600 < Float64.sub now' now)%Q ->
   fst (device_status (Some dc) now' s1) = ok (StatusBody pending)) /\
  ((inject_Z 600 < Float64.sub now' now)%Q ->
   fst (device_status (Some dc) now' s1) = ok (StatusBody expired)) /\
  fst (device_token (Some dc) r3 r4 s1)
    = (400%Z, ErrorBody "not_authorized") /\
  ((now' - now <= inject_Z 600)%Q ->
   fst (device_status (Some dc) now' s1) = ok (StatusBody pending)).
Proof.
  intros dc s1.
  assert (Hget : Dict.get dc s1 = Some (new_record r2 now))
    by apply get_after_start.
  assert (Hpending : ~ (inject_Z 600 < Float64.sub now' now)%Q ->
            fst (device_status (Some dc) now' s1) = ok (StatusBody pending)).
  { intros Hn. rewrite <- (is_expired_new_record r2 now now') in Hn.
    unfold device_status. rewrite Hget.
    destruct (is_expired now' (new_record r2 now)) eqn:E;
      [exfalso; now apply Hn|reflexivity]. }
  split; [exact Hpending|]. split; [|split].
  - intros Hexp. apply (proj2 (is_expired_new_record r2 now now')) in Hexp.
    unfold device_status. now rewrite Hget, Hexp.
  - unfold device_token, is_authorized, Dict.mem. now rewrite Hget.
  - intros Hle. now apply Hpending, sub_le_600.
Qed.

Lemma find_user_code_set_new (s : Store) (k : string) (d : PairingRecord) :
  (forall k' d', In (k', d') s -> user_code d' <> user_code d) ->
  find_user_code (user_code d) (Dict.set k d s) = Some k.
Proof.
  induction s as [|[k0 d0] s IH]; intros Hno; cbn [Dict.set].
  - cbn [find_user_code]. now rewrite String.eqb_refl.
  - destruct (String.eqb k0 k) eqn:E; cbn [find_user_code].
    + apply String.eqb_eq in E. subst k0. now rewrite String.eqb_refl.
    + assert (H0 : user_code d0 <> user_code d)
        by (apply (Hno k0); now left).
      apply String.eqb_neq in H0. rewrite H0. apply IH.
      intros k' d' Hin. apply (Hno k'). now right.
Qed.

(** X8: the whole pairing.  On every store that holds no record with the
    user code a start request is about to hand out, submitting a text whose
    upper-case form is that user code is answered with the "authorized"
    page; from then on a token request for the new device code succeeds,
    whatever the clock says, while a status call answers [expired] when the
    float difference of its clock reading and the start's exceeds 600 and
    [authorized] otherwise, in particular whenever the exact difference is
    at most 600 seconds. *)
Theorem pairing_flow (s : Store) (r1 r2 r3 r4 : N) (now now' : Q)
  (c : string) :
  (forall k d, In (k, d) s ->
               user_code d <> make_user_code (Uuid.uuid4 r2)) ->
  upper c = make_user_code (Uuid.uuid4 r2) ->
  let dc := Uuid.str (Uuid.uuid4 r1) in
  let s1 := snd (device_start r1 r2 now s) in
  let s2 := snd (approve upper (Some c) s1) in
  fst (approve upper (Some c) s1)
    = ok (AuthorizedPage (make_user_code (Uuid.uuid4 r2))) /\
  fst (device_token (Some dc) r3 r4 s2) = (200%Z, token_body r3 r4) /\
  (~ (inject_Z 600 < Float64.sub now' now)%Q ->
   fst (device_status (Some dc) now' s2) = ok (StatusBody authorized)) /\
  ((inject_Z 600 < Float64.sub now' now)%Q ->
   fst (device_status (Some dc) now' s2) = ok (StatusBody expired)) /\
  ((now' - now <= inject_Z 600)%Q ->
   fst (device_status (Some dc) now' s2) = ok (StatusBody authorized)).
Proof.
  intros Hno Hc dc s1 s2.
  assert (Hfind : find_user_code (submitted upper (Some c)) s1 = Some dc).
  { unfold submitted. rewrite Hc.
    apply (find_user_code_set_new s dc (new_record r2 now)). exact Hno. }
  assert (Hget : Dict.get dc s2
                 = Some (set_status authorized (new_record r2 now))).
  { unfold s2. rewrite (approve_found _ _ _ Hfind). cbn [snd].
    rewrite get_adjust_same. unfold s1, dc. now rewrite get_after_start. }
  assert (Hauth : ~ (inject_Z 600 < Float64.sub now' now)%Q ->
            fst (device_status (Some dc) now' s2)
            = ok (StatusBody authorized)).
  { intros Hn. rewrite <- (is_expired_new_record r2 now now') in Hn.
    unfold device_status. rewrite Hget, is_expired_set_status.
    destruct (is_expired now' (new_record r2 now)) eqn:E;
      [exfalso; now apply Hn|reflexivity]. }
  split.
  { rewrite (approve_found _ _ _ Hfind). unfold submitted. now rewrite Hc. }
  split; [|split; [exact Hauth|split]].
  - unfold device_token, is_authorized, Dict.mem. now rewrite Hget.
  - intros Hexp. apply (proj2 (is_expired_new_record r2 now now')) in Hexp.
    unfold device_status. now rewrite Hget, is_expired_set_status, Hexp.
  - intros Hle. now apply Hauth, sub_le_600.
Qed.

(** ** Device codes *)

(** X9: the device code returned by a start request is a 36-character
    text: 32 lower-case hex digits in groups of 8, 4, 4, 4 and 12 separated
    by ["-"], the first digit of the third group being the version digit
    ["4"]. *)
Theorem device_code_format (s : Store) (r1 r2 : N) (now : Q) :
  exists dc uc,
    fst (device_start r1 r2 now s)
      = (200%Z, StartBody dc uc "http://106.54.188.236:8080/console" 600 5) /\
    String.length dc = 36%nat /\
    String.get 8 dc = Some "-"%char /\ String.get 13 dc = Some "-"%char /\
    String.get 18 dc = Some "-"%char /\ String.get 23 dc = Some "-"%char /\
    String.get 14 dc = Some "4"%char /\
    String.length (unstr dc) = 32%nat /\
    PyStr.all_chars PyStr.is_lower_hex (unstr dc) = true.
Proof.
  exists (Uuid.str (Uuid.uuid4 r1)), (make_user_code (Uuid.uuid4 r2)).
  split; [reflexivity|]. split; [reflexivity|].
  do 4 (split; [reflexivity|]).
  split.
  - change (Some (Uuid.hex_digit (nibble (Uuid.uuid4 r1) 19))
            = Some "4"%char).
    now rewrite uuid4_version.
  - rewrite unstr_str. split;
      [apply hex_digits_length|apply hex_digits_lower].
Qed.

(** X10: two start requests whose device-code UUIDs differ get different
    device codes, and after both the store holds the record of each; when
    the UUIDs are equal the second start replaces the record of the
    first. *)
Theorem two_starts (s : Store) (r1 r2 r1' r2' : N) (now now' : Q) :
  let dc := Uuid.str (Uuid.uuid4 r1) in
  let dc' := Uuid.str (Uuid.uuid4 r1') in
  let s2 := snd (device_start r1' r2' now'
                   (snd (device_start r1 r2 now s))) in
  Dict.get dc' s2 = Some (new_record r2' now') /\
  (Uuid.uuid4 r1 <> Uuid.uuid4 r1' ->
   dc <> dc' /\ Dict.get dc s2 = Some (new_record r2 now)) /\
  (Uuid.uuid4 r1 = Uuid.uuid4 r1' ->
   dc = dc' /\ Dict.get dc s2 = Some (new_record r2' now')).
Proof.
  intros dc dc' s2.
  assert (Hnew : Dict.get dc' s2 = Some (new_record r2' now'))
    by apply get_after_start.
  split; [exact Hnew|]. split.
  - intros Hne.
    assert (Hdc : dc <> dc').
    { intros E. apply Hne. now apply device_code_inj. }
    split; [exact Hdc|].
    unfold s2, device_start at 1. cbn [snd].
    rewrite get_set_other by exact (fun E => Hdc (eq_sym E)).
    apply get_after_start.
  - intros E. assert (Hdc : dc = dc') by (unfold dc, dc'; now rewrite E).
    split; [exact Hdc|]. now rewrite Hdc.
Qed.

(** ** User codes *)

(** X11: the user code handed out by a start request depends on the first
    sixteen random bits of its user-code UUID only: two start responses,
    on whatever stores, carry the same user code exactly when those
    sixteen bits agree, so that no more than 65536 user codes exist. *)
Theorem same_user_code_iff (s s' : Store) (r1 r2 r1' r2' : N)
  (now now' : Q) (dc uc uri dc' uc' uri' : string) (e i e' i' : Z) :
  fst (device_start r1 r2 now s) = (200%Z, StartBody dc uc uri e i) ->
  fst (device_start r1' r2' now' s') = (200%Z, StartBody dc' uc' uri' e' i') ->
  (uc = uc' <-> code_bits r2 = code_bits r2') /\
  (code_bits r2 < 2 ^ 16)%N /\ (code_bits r2' < 2 ^ 16)%N.
Proof.
  unfold device_start. cbn [fst]. unfold ok. intros H H'.
  assert (Eu : uc = make_user_code (Uuid.uuid4 r2)) by congruence.
  assert (Eu' : uc' = make_user_code (Uuid.uuid4 r2')) by congruence.
  rewrite Eu, Eu'.
  split; [apply make_user_code_collide|]. split; apply code_bits_lt.
Qed.

(** ** Records of a reachable store *)

(** X12: in every reachable store the device codes are pairwise distinct
    and every record has [expires_in = 600], a user code of the form
    [SWIFT-XXXX] that is its own upper-case form, and the status [pending]
    or [authorized]: the status [expired] is computed by the status call
    and never stored. *)
Theorem reachable_records (reqs : list Request) :
  NoDup (Dict.keys (store_after upper reqs)) /\
  forall k d, In (k, d) (store_after upper reqs) ->
    status d <> expired /\
    expires_in d = 600%Z /\
    is_user_code (user_code d) = true /\
    PyStr.upper (user_code d) = user_code d.
Proof.
  destruct (store_after_ok reqs) as [Hwf Hrec]. split; [exact Hwf|].
  intros k d Hin. destruct (Hrec k d Hin) as (Hs & He & Hf & Hu).
  repeat split; try assumption.
  destruct Hs as [Hs|Hs]; rewrite Hs; discriminate.
Qed.

(** ** Tokens *)

(** X13: every token response, from the token endpoint or from the refresh
    endpoint, has HTTP status 200 and [expires_in = 3600]; its access token
    is ["access_"] and its refresh token ["refresh_"] followed by 32
    lower-case hex digits, so the two are never equal; and neither endpoint
    writes to the store.  The refresh endpoint answers so on every store,
    whether or not any device was ever authorized. *)
Theorem token_responses (s : Store) (arg : option string) (r1 r2 : N) :
  fst (refresh r1 r2 s) = (200%Z, token_body r1 r2) /\
  snd (refresh r1 r2 s) = s /\
  forall code acc ref e,
    fst (device_token arg r1 r2 s) = (code, TokenBody acc ref e) \/
    fst (refresh r1 r2 s) = (code, TokenBody acc ref e) ->
    code = 200%Z /\ e = 3600%Z /\
    is_token "access_" acc = true /\ is_token "refresh_" ref = true /\
    acc <> ref.
Proof.
  split; [reflexivity|]. split; [reflexivity|].
  intros code acc ref e H.
  assert (E : (code, TokenBody acc ref e) = (200%Z, token_body r1 r2)).
  { destruct H as [H|H]; [|now rewrite <- H].
    unfold device_token in H. destruct (is_authorized arg s);
      [now rewrite <- H|discriminate H]. }
  clear H. unfold token_body in E.
  assert (E1 : code = 200%Z) by congruence.
  assert (E2 : acc = "access_" ++ Uuid.hex (Uuid.uuid4 r1)) by congruence.
  assert (E3 : ref = "refresh_" ++ Uuid.hex (Uuid.uuid4 r2)) by congruence.
  assert (E4 : e = 3600%Z) by congruence.
  clear E. subst code acc ref e.
  split; [reflexivity|]. split; [reflexivity|].
  split; [apply is_token_hex|]. split; [apply is_token_hex|].
  discriminate.
Qed.

(** ** Polling and redeeming *)

(** X14: what a status call tells a client about redeeming, on every
    store: when it answers [authorized], a token request for the same
    device code succeeds; when it answers [pending], the token request is
    refused with [not_authorized]. *)
Theorem status_then_token (s : Store) (arg : option string) (now : Q)
  (r1 r2 : N) :
  (fst (device_status arg now s) = ok (StatusBody authorized) ->
   fst (device_token arg r1 r2 s) = (200%Z, token_body r1 r2)) /\
  (fst (device_status arg now s) = ok (StatusBody pending) ->
   fst (device_token arg r1 r2 s) = (400%Z, ErrorBody "not_authorized")).
Proof.
  unfold device_status, device_token, is_authorized, Dict.mem.
  destruct arg as [dc|]; [|split; [discriminate|reflexivity]].
  destruct (Dict.get dc s) as [d|]; [|split; [discriminate|reflexivity]].
  destruct (is_expired now d); [split; discriminate|].
  cbn [fst]. destruct (status d); split; intros H;
    first [reflexivity|discriminate H].
Qed.

End Properties.

(** * The theorems at work

    The statements above hold for every upper-casing function.  Below
    they are applied to concrete runs whose submitted codes are ASCII
    text, where [str.upper] is [PyStr.upper]. *)

Lemma upper_ascii : upper_on_ascii PyStr.upper.
Proof. intros s _. reflexivity. Qed.

(** ** Float differences *)

(** [Float64.sub] gives what the kernel's binary64 subtraction gives, here
    at 600.1 - 0.1, at two clock readings, at two small and at two
    subnormal numbers, and where the difference lies between two floats. *)
Example sub_agrees_with_binary64 :
  Float64.sub_agrees 0x1.2c0cccccccccdp+9 0x1.999999999999ap-4 = true /\
  Float64.sub_agrees 0x1.954fcd6600000p+30 0x1.954fc40100000p+30 = true /\
  Float64.sub_agrees 0x1.3333333333333p-2 0x1.999999999999ap-4 = true /\
  Float64.sub_agrees 0x0.00000000007e8p-1022 0x0.0000000000a03p-1022 = true /\
  Float64.sub_agrees 0x1.1c37937e08000p+53 0x1.8p+0 = true.
Proof. vm_compute. repeat split. Qed.

(** The floats nearest to 600.1 and to 0.1 differ by more than 600, and
    their float difference is 600: a record created at the one and polled
    at the other is not expired. *)
Example poll_at_600_1 :
  (inject_Z 600 < float_600_1 - float_0_1)%Q /\
  (Float64.sub float_600_1 float_0_1 == inject_Z 600)%Q /\
  fst (device_status (Some "3b241101-e2bb-4255-ad7c-6a2e5f0d9c41")
         float_600_1 (store_after PyStr.upper start_at_0_1))
  = ok (StatusBody pending).
Proof. vm_compute. repeat split. Qed.

(** ** Instances and counterexamples *)

(** C1, as stated, fails: an approved record older than its time to live is
    reported [expired] although its stored status is [authorized]. *)
Lemma expired_only_if_pending_fails : ~ expired_only_if_pending.
Proof.
  intros H.
  destruct (H PyStr.upper upper_ascii approved_then_old
      "3b241101-e2bb-4255-ad7c-6a2e5f0d9c41"
              1700000601
              {| user_code := "SWIFT-9F3C"; status := authorized;
                 created := 1700000000; expires_in := 600 |}) as [_ Hst].
  - vm_compute. reflexivity.
  - vm_compute. reflexivity.
  - discriminate Hst.
Qed.

Lemma device_status_found_witness :
  let s := store_after PyStr.upper approved_then_old in
  let dc := "3b241101-e2bb-4255-ad7c-6a2e5f0d9c41" in
  fst (device_status (Some dc) 1700000601 s) = ok (StatusBody expired) <->
  (inject_Z 600 < Float64.sub 1700000601 1700000000)%Q.
Proof.
  refine (proj1 (proj2 (device_status_found PyStr.upper approved_then_old
    "3b241101-e2bb-4255-ad7c-6a2e5f0d9c41" 1700000601
    {| user_code := "SWIFT-9F3C"; status := authorized;
       created := 1700000000; expires_in := 600 |} _))).
  vm_compute. reflexivity.
Defined.

Lemma device_status_unknown_witness :
  device_status (Some "no-such-device") 1700000005
      (store_after PyStr.upper approved_then_old)
  = ((200%Z, StatusBody pending), store_after PyStr.upper approved_then_old).
Proof.
  refine (proj1 (device_status_unknown
      (store_after PyStr.upper approved_then_old)
                   "no-such-device" 1700000005 _)).
  vm_compute. reflexivity.
Defined.

Lemma device_token_frame_witness :
  let s := store_after PyStr.upper approved_then_old in
  let dc := "3b241101-e2bb-4255-ad7c-6a2e5f0d9c41" in
  snd (device_token (Some dc) 11 12 s) = s /\
  fst (device_token (Some dc) 13 14 (snd (device_token (Some dc) 11 12 s)))
  = (200%Z, token_body 13 14).
Proof.
  pose proof (device_token_frame (store_after PyStr.upper approved_then_old)
    "3b241101-e2bb-4255-ad7c-6a2e5f0d9c41"
    {| user_code := "SWIFT-9F3C"; status := authorized;
       created := 1700000000; expires_in := 600 |} 11 12 13 14) as H.
  cbv zeta in H.
  destruct H as (_ & H2 & H3 & _); [vm_compute; reflexivity|reflexivity|].
  split; assumption.
Defined.

Lemma device_token_iff_witness :
  fst (device_token (Some "3b241101-e2bb-4255-ad7c-6a2e5f0d9c41")
         0x5e0c7a92d1b34f6ea8c4091f3b7d2e65
         0x1f4d9b06c27a4e13b5a8d60e49f172c3
         (store_after PyStr.upper approved_then_old))
  = (200%Z, TokenBody "access_5e0c7a92d1b34f6ea8c4091f3b7d2e65"
              "refresh_1f4d9b06c27a4e13b5a8d60e49f172c3" 3600) /\
  fst (device_token (Some "3b241101-e2bb-4255-ad7c-6a2e5f0d9c41")
         0x5e0c7a92d1b34f6ea8c4091f3b7d2e65
         0x1f4d9b06c27a4e13b5a8d60e49f172c3
         (store_after PyStr.upper one_start))
  = (400%Z, ErrorBody "not_authorized").
Proof.
  pose proof (device_token_iff PyStr.upper approved_then_old
                (Some "3b241101-e2bb-4255-ad7c-6a2e5f0d9c41")
                0x5e0c7a92d1b34f6ea8c4091f3b7d2e65
                0x1f4d9b06c27a4e13b5a8d60e49f172c3) as H.
  pose proof (device_token_iff PyStr.upper one_start
                (Some "3b241101-e2bb-4255-ad7c-6a2e5f0d9c41")
                0x5e0c7a92d1b34f6ea8c4091f3b7d2e65
                0x1f4d9b06c27a4e13b5a8d60e49f172c3) as H'.
  cbv zeta in H, H'.
  destruct H as (H1 & _). destruct H' as (_ & H2 & _). split.
  - destruct (proj1 H1) as (acc & ref & Hresp & _).
    + exists "3b241101-e2bb-4255-ad7c-6a2e5f0d9c41",
        {| user_code := "SWIFT-9F3C"; status := authorized;
           created := 1700000000; expires_in := 600 |}.
      split; [reflexivity|]. split; [vm_compute; now left|reflexivity].
    + rewrite Hresp. vm_compute in Hresp. symmetry. exact Hresp.
  - apply (proj1 H2). intros (dc & d & _ & Hin & Hst).
    vm_compute in Hin. destruct Hin as [E|[]].
    injection E as _ <-. discriminate Hst.
Defined.


Lemma approve_unknown_witness :
  approve PyStr.upper (Some "UNKNOWN-CODE")
      (store_after PyStr.upper approved_then_old)
  = ((200%Z, NotFoundPage
      "UNKNOWN-CODE"), store_after PyStr.upper approved_then_old).
Proof.
  apply (approve_unknown PyStr.upper (store_after PyStr.upper approved_then_old)
      (Some "UNKNOWN-CODE")).
  intros k d Hin. vm_compute in Hin.
  destruct Hin as [[= <- <-]|[]]. vm_compute. discriminate.
Defined.

Lemma approve_first_match_only_witness :
  snd (approve PyStr.upper (Some "swift-ab1f")
      (store_after PyStr.upper colliding_starts))
  = [("3b241101-e2bb-4255-ad7c-6a2e5f0d9c41",
      {| user_code := "SWIFT-AB1F"; status := authorized;
         created := 1700000000; expires_in := 600 |});
     ("7d90c3e4-5f12-468b-9a0b-e1c2d3f4a5b6",
      {| user_code := "SWIFT-AB1F"; status := pending;
         created := 1700000001; expires_in := 600 |})].
Proof.
  apply (approve_first_match_only PyStr.upper colliding_starts (Some
      "swift-ab1f")
           [] [] []
           "3b241101-e2bb-4255-ad7c-6a2e5f0d9c41"
           "7d90c3e4-5f12-468b-9a0b-e1c2d3f4a5b6"
           {| user_code := "SWIFT-AB1F"; status := pending;
              created := 1700000000; expires_in := 600 |}
           {| user_code := "SWIFT-AB1F"; status := pending;
              created := 1700000001; expires_in := 600 |}).
  - vm_compute. reflexivity.
  - intros k d [].
  - vm_compute. reflexivity.
  - vm_compute. reflexivity.
Defined.

(** C5, as stated, fails: a record approved and then polled more than
    [expires_in] seconds after its creation reads [expired]. *)
Lemma approved_reads_authorized_fails : ~ approved_reads_authorized.
Proof.
  intros H.
  specialize (H PyStr.upper upper_ascii one_start (Some "swift-9f3c")
                "3b241101-e2bb-4255-ad7c-6a2e5f0d9c41"
                {| user_code := "SWIFT-9F3C"; status := pending;
                   created := 1700000000; expires_in := 600 |} 1700000601).
  cbv zeta in H.
  assert (Hst : fst (device_status
                       (Some "3b241101-e2bb-4255-ad7c-6a2e5f0d9c41") 1700000601
                       (snd (approve PyStr.upper (Some "swift-9f3c")
                               (store_after PyStr.upper one_start))))
                = ok (StatusBody expired)) by (vm_compute; reflexivity).
  rewrite H in Hst.
  - discriminate Hst.
  - vm_compute. now left.
  - vm_compute. reflexivity.
  - vm_compute. reflexivity.
Qed.

(** A second way in which the property fails: of two records carrying the
    same user code only the first is approved, the second still reads
    [pending]. *)
Lemma approved_second_match_pending :
  let s := store_after PyStr.upper colliding_starts in
  let k2 := "7d90c3e4-5f12-468b-9a0b-e1c2d3f4a5b6" in
  Dict.get k2 s = Some {| user_code := "SWIFT-AB1F"; status := pending;
                          created := 1700000001; expires_in := 600 |} /\
  fst (approve PyStr.upper (Some "SWIFT-AB1F") s) = ok (AuthorizedPage
      "SWIFT-AB1F") /\
  fst (device_status (Some k2) 1700000002 (snd (approve PyStr.upper (Some
      "SWIFT-AB1F") s)))
  = ok (StatusBody pending).
Proof. vm_compute. repeat split. Qed.

Lemma approve_then_status_witness :
  fst (device_status (Some "3b241101-e2bb-4255-ad7c-6a2e5f0d9c41") 1700000600
         (snd (approve PyStr.upper (Some "swift-9f3c")
             (store_after PyStr.upper one_start))))
  = ok (StatusBody authorized).
Proof.
  refine (proj2 (approve_then_status PyStr.upper one_start (Some "swift-9f3c")
      1700000600
    [] [] "3b241101-e2bb-4255-ad7c-6a2e5f0d9c41"
    {| user_code := "SWIFT-9F3C"; status := pending;
       created := 1700000000; expires_in := 600 |} _ _ _)).
  - vm_compute. reflexivity.
  - intros k' d' [].
  - vm_compute. reflexivity.
Defined.

Lemma device_start_spec_witness :
  snd (device_start 0x7d90c3e45f12468b9a0be1c2d3f4a5b6
         0xab1f0c9e13d7425f8e6b7a90c1d2e3f4 1700000001
         (store_after PyStr.upper one_start))
  = (store_after PyStr.upper one_start ++
     [("7d90c3e4-5f12-468b-9a0b-e1c2d3f4a5b6",
       {| user_code := "SWIFT-AB1F"; status := pending;
          created := 1700000001; expires_in := 600 |})])%list.
Proof.
  pose proof (device_start_spec (store_after PyStr.upper one_start)
    0x7d90c3e45f12468b9a0be1c2d3f4a5b6
    0xab1f0c9e13d7425f8e6b7a90c1d2e3f4 1700000001) as H.
  cbv zeta in H. destruct H as (_ & _ & _ & _ & _ & _ & H & _).
  refine (proj1 (H _)). vm_compute. reflexivity.
Defined.

(** C6, as stated, fails: a start request whose device-code UUID repeats
    the one of a stored record puts its record in the place of the stored
    one, and the store holds one record as before. *)
Lemma start_adds_one_record_fails : ~ start_adds_one_record.
Proof.
  intros H.
  specialize (H PyStr.upper upper_ascii one_start
                0x3b241101e2bb4255ad7c6a2e5f0d9c41%N
                0xab1f0c9e13d7425f8e6b7a90c1d2e3f4%N 1700000001%Q).
  cbv zeta in H. vm_compute in H. discriminate H.
Qed.

(** The same start request, seen from the store: the record under the
    device code is the new one, still the only one. *)
Example start_replaces_record :
  snd (device_start 0x3b241101e2bb4255ad7c6a2e5f0d9c41
         0xab1f0c9e13d7425f8e6b7a90c1d2e3f4 1700000001
         (store_after PyStr.upper one_start))
  = [("3b241101-e2bb-4255-ad7c-6a2e5f0d9c41",
      {| user_code := "SWIFT-AB1F"; status := pending;
         created := 1700000001; expires_in := 600 |})].
Proof. vm_compute. reflexivity. Qed.

(** C8, as stated, fails: [device_start] does not look at the user codes
    already stored, and two UUIDs that agree on their first four hex digits
    give two live records with one user code. *)
Lemma live_user_codes_unique_fails : ~ live_user_codes_unique.
Proof.
  intros H.
  specialize (H PyStr.upper upper_ascii colliding_starts 1700000002
                "3b241101-e2bb-4255-ad7c-6a2e5f0d9c41"
                {| user_code := "SWIFT-AB1F"; status := pending;
                   created := 1700000000; expires_in := 600 |}
                "7d90c3e4-5f12-468b-9a0b-e1c2d3f4a5b6"
                {| user_code := "SWIFT-AB1F"; status := pending;
                   created := 1700000001; expires_in := 600 |}).
  cbv zeta in H.
  assert (Hk : "3b241101-e2bb-4255-ad7c-6a2e5f0d9c41"
               = "7d90c3e4-5f12-468b-9a0b-e1c2d3f4a5b6").
  { apply H.
    - vm_compute. now left.
    - vm_compute. right. now left.
    - vm_compute. reflexivity.
    - vm_compute. reflexivity.
    - reflexivity. }
  discriminate Hk.
Qed.

Lemma user_codes_unique_witness :
  NoDup (stored_user_codes (store_after PyStr.upper distinct_starts)).
Proof.
  refine (proj2 (user_codes_unique PyStr.upper distinct_starts _)).
  vm_compute. constructor; [intros [H|[]]; discriminate H|].
  constructor; [intros []|constructor].
Defined.

(** A pairing approved and polled after its time to live reads [expired],
    yet its tokens can still be redeemed. *)
Example expired_yet_redeemable :
  let s := store_after PyStr.upper approved_then_old in
  let dc := Some "3b241101-e2bb-4255-ad7c-6a2e5f0d9c41" in
  fst (device_status dc 1700000601 s) = ok (StatusBody expired) /\
  fst (device_token dc 11 12 s) = ok (token_body 11 12).
Proof. vm_compute. split; reflexivity. Qed.

Lemma record_fields_stable_witness :
  exists d',
    Dict.get "3b241101-e2bb-4255-ad7c-6a2e5f0d9c41"
      (run PyStr.upper [Approve (Some "swift-9f3c"); GetStatus None 1700000700]
         (store_after PyStr.upper one_start)) = Some d' /\
    user_code d' = "SWIFT-9F3C" /\ created d' = 1700000000 /\
    expires_in d' = 600%Z.
Proof.
  destruct (record_fields_stable PyStr.upper
           [Approve (Some "swift-9f3c"); GetStatus None 1700000700]
           (store_after PyStr.upper one_start)
               "3b241101-e2bb-4255-ad7c-6a2e5f0d9c41"
           {| user_code := "SWIFT-9F3C"; status := pending;
              created := 1700000000; expires_in := 600 |})
    as (d' & H1 & H2 & H3 & H4 & _).
  - vm_compute. reflexivity.
  - cbn. tauto.
  - exists d'. auto.
Defined.

Lemma expired_stays_expired_witness :
  fst (device_status (Some "3b241101-e2bb-4255-ad7c-6a2e5f0d9c41") 1700000700
         (run PyStr.upper [Approve (Some "swift-9f3c")]
             (store_after PyStr.upper one_start)))
  = ok (StatusBody expired).
Proof.
  apply (expired_stays_expired PyStr.upper one_start [Approve (Some
      "swift-9f3c")]
           "3b241101-e2bb-4255-ad7c-6a2e5f0d9c41" 1700000601 1700000700).
  - vm_compute. reflexivity.
  - cbn. tauto.
  - vm_compute. discriminate.
Defined.

Lemma token_needs_approval_witness :
  exists arg,
    In (Approve arg) approved_then_old /\ submitted PyStr.upper arg =
        "SWIFT-9F3C".
Proof.
  destruct (token_needs_approval PyStr.upper approved_then_old
              "3b241101-e2bb-4255-ad7c-6a2e5f0d9c41" 11 12)
    as (d & Hget & _ & arg & Hin & Hsub).
  - vm_compute. reflexivity.
  - exists arg. split; [assumption|].
    rewrite Hsub. vm_compute in Hget. now injection Hget as <-.
Defined.

Lemma approve_malformed_witness :
  approve PyStr.upper (Some "swift-9f3") (store_after PyStr.upper one_start)
  = ((200%Z, NotFoundPage "SWIFT-9F3"), store_after PyStr.upper one_start).
Proof.
  apply (approve_malformed PyStr.upper one_start (Some "swift-9f3")).
  vm_compute. reflexivity.
Defined.

Lemma start_then_poll_witness :
  fst (device_status (Some "7d90c3e4-5f12-468b-9a0b-e1c2d3f4a5b6") 1700000700
         (snd (device_start 0x7d90c3e45f12468b9a0be1c2d3f4a5b6
                 0xab1f0c9e13d7425f8e6b7a90c1d2e3f4 1700000001
                 (store_after PyStr.upper one_start))))
  = ok (StatusBody expired).
Proof.
  refine (proj1 (proj2 (start_then_poll (store_after PyStr.upper one_start)
    0x7d90c3e45f12468b9a0be1c2d3f4a5b6 0xab1f0c9e13d7425f8e6b7a90c1d2e3f4
    11 12 1700000001 1700000700)) _).
  vm_compute. reflexivity.
Defined.

Lemma pairing_flow_witness :
  let s1 := snd (device_start 0x7d90c3e45f12468b9a0be1c2d3f4a5b6
                   0xab1f0c9e13d7425f8e6b7a90c1d2e3f4 1700000001
                   (store_after PyStr.upper one_start)) in
  fst (device_token (Some "7d90c3e4-5f12-468b-9a0b-e1c2d3f4a5b6") 11 12
         (snd (approve PyStr.upper (Some "Swift-ab1F") s1)))
  = (200%Z, token_body 11 12).
Proof.
  refine (proj1 (proj2 (pairing_flow PyStr.upper
      (store_after PyStr.upper one_start)
    0x7d90c3e45f12468b9a0be1c2d3f4a5b6 0xab1f0c9e13d7425f8e6b7a90c1d2e3f4
    11 12 1700000001 1700000700 "Swift-ab1F" _ _))).
  - intros k d Hin. vm_compute in Hin.
    destruct Hin as [[= <- <-]|[]]. vm_compute. discriminate.
  - vm_compute. reflexivity.
Defined.

Lemma two_starts_witness :
  Dict.get "3b241101-e2bb-4255-ad7c-6a2e5f0d9c41"
    (snd (device_start 0x7d90c3e45f12468b9a0be1c2d3f4a5b6
            0xab1f0c9e13d7425f8e6b7a90c1d2e3f4 1700000001
            (snd (device_start 0x3b241101e2bb4255ad7c6a2e5f0d9c41
                    0x9f3c52d07a1e4b6688a1c0d2e4f60718 1700000000 []))))
  = Some (new_record 0x9f3c52d07a1e4b6688a1c0d2e4f60718 1700000000).
Proof.
  refine (proj2 (proj1 (proj2 (two_starts []
    0x3b241101e2bb4255ad7c6a2e5f0d9c41 0x9f3c52d07a1e4b6688a1c0d2e4f60718
    0x7d90c3e45f12468b9a0be1c2d3f4a5b6 0xab1f0c9e13d7425f8e6b7a90c1d2e3f4
    1700000000 1700000001)) _)).
  vm_compute. discriminate.
Defined.

Lemma same_user_code_iff_witness :
  code_bits 0xab1f52d07a1e4b6688a1c0d2e4f60718
  = code_bits 0xab1f0c9e13d7425f8e6b7a90c1d2e3f4.
Proof.
  refine (proj1 (proj1 (same_user_code_iff []
      (store_after PyStr.upper one_start)
    0x3b241101e2bb4255ad7c6a2e5f0d9c41 0xab1f52d07a1e4b6688a1c0d2e4f60718
    0x7d90c3e45f12468b9a0be1c2d3f4a5b6 0xab1f0c9e13d7425f8e6b7a90c1d2e3f4
    1700000000 1700000001
    "3b241101-e2bb-4255-ad7c-6a2e5f0d9c41" "SWIFT-AB1F"
    "http://106.54.188.236:8080/console"
    "7d90c3e4-5f12-468b-9a0b-e1c2d3f4a5b6" "SWIFT-AB1F"
    "http://106.54.188.236:8080/console" 600 5 600 5 _ _)) eq_refl).
  - vm_compute. reflexivity.
  - vm_compute. reflexivity.
Defined.

Lemma token_responses_witness :
  is_token "access_" ("access_" ++ Uuid.hex (Uuid.uuid4 11)) = true.
Proof.
  destruct (token_responses [] None 11 12) as (_ & _ & H).
  refine (proj1 (proj2 (proj2 (H 200%Z _ ("refresh_" ++ Uuid.hex (Uuid.uuid4
      12))
                                 3600%Z _)))).
  right. reflexivity.
Defined.

Lemma status_then_token_witness :
  fst (device_token (Some "3b241101-e2bb-4255-ad7c-6a2e5f0d9c41") 11 12
         (store_after PyStr.upper approved_then_old))
  = (200%Z, token_body 11 12).
Proof.
  refine (proj1 (status_then_token (store_after PyStr.upper approved_then_old)
    (Some "3b241101-e2bb-4255-ad7c-6a2e5f0d9c41") 1700000300 11 12) _).
  vm_compute. reflexivity.
Defined.
